(** * UltraControl: event gateway, subscription API, guest schema, settings

    A shallow embedding of the Python sources

    - [openhands/server/routes/websocket_events.py] (module [Gateway]),
    - [app/api/v1/endpoints/subscription.py]        (modules [Subscription],
                                                     [Listing]),
    - [app/core/stripe_client.py]                   (module [Stripe]),
    - [app/schemas/auth.py]                         (modules [Auth],
                                                     [UserSignUp],
                                                     [PasswordResetConfirm]),
    - [app/core/config.py]                          (module [Config]),
    - [app/main.py]                                 (module [Main]),
    - [app/db/session.py]                           (module [Session]),

    followed by the properties of the specification that concern them.
    Python dictionaries are finite maps ([gmap string _]); exceptions are
    values of [exn] carried by an error monad; the mutable connection
    registry and the frames written to the sockets are threaded as an
    explicit state. *)

From Stdlib Require Import ZArith QArith Qround Qpower Ascii String
  Floats.SpecFloat.
From stdpp Require Import gmap strings list fin_maps.

Local Open Scope string_scope.

(* ===================================================================== *)
(** * Part I. Definitions                                                *)
(* ===================================================================== *)

(** ** Python values and exceptions *)

Module Py.

(** Values that [json.loads] can produce, which are also the values a
    request body or an environment setting can hold: [None], [bool],
    [int], [float], [str], [list], [dict] with [str] keys. *)
#[warnings="-register-all"]
Inductive json : Type :=
| JNull
| JBool (b : bool)
| JInt (z : Z)
| JFloat (f : spec_float)
| JStr (s : string)
| JArr (l : list json)
| JObj (m : gmap string json).

(** The exceptions the modelled code can raise or receive.  The payload of
    a [TypeError] is the operand that had the wrong type. *)
Inductive exn : Type :=
| WebSocketDisconnect
| JSONDecodeError
| TypeError_not_iterable (v : json)   (* [key in v], v not a container      *)
| TypeError_bad_index (v : json)      (* [v[key]], v not a dict             *)
| TypeError_concat (v : json)         (* [v + str], v not a str             *)
| AttributeError_get (v : json)       (* [v.get(..)], v not a dict          *)
| KeyError (key : string)
| ValueError (v : json)               (* [raise ValueError(v)]              *)
| ValueError_not_in_list              (* [list.remove(x): x not in list]    *)
| IndexError
| NotImplementedError (msg : string)
| OtherException (name : string)      (* any other subclass of [Exception]  *)
| CancelledError.                     (* a [BaseException], not [Exception] *)

(** [isinstance(e, Exception)]: what a clause [except Exception] catches. *)
Definition is_Exception (e : exn) : bool :=
  match e with
  | CancelledError => false
  | _ => true
  end.

Inductive result (A : Type) : Type :=
| Ok (a : A)
| Raise (e : exn).
Arguments Ok {A} a.
Arguments Raise {A} e.

Definition rbind {A B} (r : result A) (k : A -> result B) : result B :=
  match r with
  | Ok a => k a
  | Raise e => Raise e
  end.

(** [bool(v)], the truth value used by [if v:] and [not v]. *)
Definition truthy (v : json) : bool :=
  match v with
  | JNull => false
  | JBool b => b
  | JInt z => negb (z =? 0)%Z
  | JFloat (S754_zero _) => false
  | JFloat _ => true
  | JStr EmptyString => false
  | JStr _ => true
  | JArr [] => false
  | JArr _ => true
  | JObj m => negb (bool_decide (size m = 0%nat))
  end.

(** [v == s] for a string literal [s]. *)
Definition eq_str (v : json) (s : string) : bool :=
  match v with
  | JStr s' => String.eqb s' s
  | _ => false
  end.

(** [needle in hay] on two strings. *)
Fixpoint is_substring (needle hay : string) : bool :=
  String.prefix needle hay ||
  match hay with
  | EmptyString => false
  | String _ hay' => is_substring needle hay'
  end.

(** [key in c]. *)
Definition contains (key : string) (c : json) : result bool :=
  match c with
  | JObj m => Ok (bool_decide (is_Some (m !! key)))
  | JArr l => Ok (existsb (fun v => eq_str v key) l)
  | JStr s => Ok (is_substring key s)
  | _ => Raise (TypeError_not_iterable c)
  end.

(** [c[key]] with a string key. *)
Definition getitem (c : json) (key : string) : result json :=
  match c with
  | JObj m =>
      match m !! key with
      | Some v => Ok v
      | None => Raise (KeyError key)
      end
  | _ => Raise (TypeError_bad_index c)
  end.

(** [c.get(key, dflt)]; [c.get(key)] is [get c key JNull]. *)
Definition get (c : json) (key : string) (dflt : json) : result json :=
  match c with
  | JObj m => Ok (default dflt (m !! key))
  | _ => Raise (AttributeError_get c)
  end.

(** [a + suffix] where [suffix] is a [str]. *)
Definition add_str (a : json) (suffix : string) : result json :=
  match a with
  | JStr s => Ok (JStr (s +:+ suffix))
  | _ => Raise (TypeError_concat a)
  end.

(** [l.remove(x)] on a list: drops the first occurrence, [None] standing
    for the [ValueError] raised when there is none. *)
Fixpoint list_remove {A} `{EqDecision A} (x : A) (l : list A) : option (list A) :=
  match l with
  | [] => None
  | y :: l' =>
      if decide (x = y) then Some l'
      else match list_remove x l' with
           | Some r => Some (y :: r)
           | None => None
           end
  end.

(** Computations that read and write a state of type [S] and may raise. *)
Definition M (S A : Type) : Type := S -> result A * S.

Definition ret {S A} (a : A) : M S A := fun st => (Ok a, st).
Definition raise {S A} (e : exn) : M S A := fun st => (Raise e, st).
Definition lift {S A} (r : result A) : M S A := fun st => (r, st).

Definition bind {S A B} (m : M S A) (k : A -> M S B) : M S B :=
  fun st =>
    match m st with
    | (Ok a, st') => k a st'
    | (Raise e, st') => (Raise e, st')
    end.

(** [try: m  except ...: handler]: [handler e = None] when no clause
    matches [e], which then propagates. *)
Definition try_except {S A} (m : M S A) (handler : exn -> option (M S A)) : M S A :=
  fun st =>
    match m st with
    | (Ok a, st') => (Ok a, st')
    | (Raise e, st') =>
        match handler e with
        | Some h => h st'
        | None => (Raise e, st')
        end
    end.

Module Notations.
Notation "'let*' x ':=' m 'in' k" := (bind m (fun x => k))
  (at level 10, x pattern, m at level 100, k at level 200).
End Notations.

(** A dict literal with distinct keys. *)
Definition dict (items : list (string * json)) : json :=
  JObj (list_to_map items).

(** [sum(l)] over integers. *)
Definition sum (l : list Z) : Z := foldl Z.add 0%Z l.

(** *** Strings *)

(** [str.isspace] on the ASCII range. *)
Definition is_space (c : ascii) : bool :=
  let n := nat_of_ascii c in
  ((9 <=? n)%nat && (n <=? 13)%nat) || ((28 <=? n)%nat && (n <=? 32)%nat).

Fixpoint lstrip (s : string) : string :=
  match s with
  | String c s' => if is_space c then lstrip s' else s
  | EmptyString => EmptyString
  end.

Definition string_rev (s : string) : string :=
  string_of_list_ascii (rev (list_ascii_of_string s)).

(** [s.strip()], for the blanks of the ASCII range. *)
Definition strip (s : string) : string :=
  string_rev (lstrip (string_rev (lstrip s))).

(** [s.split(sep)] for a separator of one character. *)
Fixpoint split (sep : ascii) (s : string) : list string :=
  match s with
  | EmptyString => [EmptyString]
  | String c s' =>
      if Ascii.eqb c sep then EmptyString :: split sep s'
      else match split sep s' with
           | w :: ws => String c w :: ws
           | [] => [String c EmptyString]
           end
  end.

(** [s.startswith(p)] *)
Definition startswith (s p : string) : bool := String.prefix p s.

End Py.

(** ** The event gateway ([websocket_events.py]) *)

Module Gateway.
Import Py Py.Notations.

(** A [WebSocket] object is known by its identity: [list.remove] compares
    sockets with [==], which Starlette leaves as object identity. *)
Definition WebSocket := nat.

(** The mutable state the endpoint works on: the registry of the
    module-level [manager], and, in order, every message handed to
    [websocket.send_text(json.dumps(message))] with the socket it was
    written to.  [LoggerMock] only prints and is left out. *)
Record State : Type := mkState {
  active_connections : list WebSocket;
  sent : list (WebSocket * json);
}.

Definition init : State := mkState [] [].

(** The state once [message] has been written to [websocket]. *)
Definition sent_to (websocket : WebSocket) (message : json) (st : State) : State :=
  mkState (active_connections st) (sent st ++ [(websocket, message)]).

(** [EventStreamMock.add_event]; [JNull] is the [None] it returns. *)
Definition add_event (event : json) (source : string) : M State json :=
  let* action_type := lift (get event "actionType" JNull) in
  if eq_str action_type "ECHO_ACTION" then
    let* details := lift (get event "details" JNull) in
    ret (dict [("observationType", JStr "ECHO_OBSERVATION"); ("details", details)])
  else ret JNull.

(** [ConnectionManager.connect]: [accept] is what [await
    websocket.accept()] does, return or raise. *)
Definition connect (accept : result unit) (websocket : WebSocket) : M State unit :=
  let* _ := lift accept in
  fun st => (Ok tt, mkState (active_connections st ++ [websocket]) (sent st)).

(** [ConnectionManager.disconnect]. *)
Definition disconnect (websocket : WebSocket) : M State unit :=
  fun st =>
    match list_remove websocket (active_connections st) with
    | Some l => (Ok tt, mkState l (sent st))
    | None => (Raise ValueError_not_in_list, st)
    end.

(** [ConnectionManager.send_personal_message]: an error of [send_text] is
    caught and logged there, so the call always returns. *)
Definition send_personal_message (message : json) (websocket : WebSocket) : M State unit :=
  fun st => (Ok tt, sent_to websocket message st).

(** ["type" in message_data and message_data["type"] == "action"
     and "actionType" in message_data] *)
Definition is_action_payload (message_data : json) : result bool :=
  rbind (contains "type" message_data) (fun has_type =>
  if has_type then
    rbind (getitem message_data "type") (fun ty =>
    if eq_str ty "action" then contains "actionType" message_data else Ok false)
  else Ok false).

Section Endpoint.

(** [json.loads]: the decoded value, or [None] for [JSONDecodeError]. *)
Variable json_loads : string -> option json.
(** [str(e)] for an exception. *)
Variable exn_str : exn -> string.

(** The body of the inner [try]. *)
Definition process_message (client_id : string) (websocket : WebSocket)
    (data : string) : M State unit :=
  let* message_data :=
    match json_loads data with
    | Some v => ret v
    | None => raise JSONDecodeError
    end in
  let* is_action := lift (is_action_payload message_data) in
  if is_action then
    let* response := add_event message_data ("ws_client:" +:+ client_id) in
    if truthy response then
      let* event_id :=
        lift (rbind (get message_data "eventId" (JStr EmptyString))
                    (fun v => add_str v "_obs")) in
      let* timestamp := lift (get message_data "timestamp" (JStr EmptyString)) in
      let* observation_type := lift (get response "observationType" JNull) in
      let* details := lift (get response "details" JNull) in
      send_personal_message
        (dict [("eventId", event_id);
               ("timestamp", timestamp);
               ("source", JStr "WebSocketGateway");
               ("type", JStr "observation");
               ("observationType", observation_type);
               ("details", details)])
        websocket
    else
      send_personal_message
        (dict [("status", JStr "action_received_but_no_direct_response")])
        websocket
  else
    send_personal_message
      (dict [("error", JStr "Invalid message format, expected ActionPayload")])
      websocket.

(** The inner [try] with its two [except] clauses. *)
Definition handle_frame (client_id : string) (websocket : WebSocket)
    (data : string) : M State unit :=
  try_except (process_message client_id websocket data)
    (fun e =>
       match e with
       | JSONDecodeError =>
           Some (send_personal_message
                   (dict [("error", JStr "Invalid JSON format")]) websocket)
       | _ =>
           if is_Exception e then
             Some (send_personal_message
                     (dict [("error", JStr ("Server error: " +:+ exn_str e))])
                     websocket)
           else None
       end).

(** One turn of [while True]: [received] is what [await
    websocket.receive_text()] does, return a frame or raise. *)
Definition loop_body (client_id : string) (websocket : WebSocket)
    (received : result string) : M State unit :=
  let* data := lift received in
  handle_frame client_id websocket data.

(** The outer [except WebSocketDisconnect], [except Exception] and
    [finally] once the loop has raised [e]: both clauses only log; the
    [finally] block runs [manager.disconnect], and an exception that no
    clause caught is raised again after it. *)
Definition finish (websocket : WebSocket) (e : exn) : M State unit :=
  let pending : M State unit :=
    match e with
    | WebSocketDisconnect => ret tt
    | _ => if is_Exception e then ret tt else raise e
    end in
  let* _ := disconnect websocket in
  pending.

(** Where a call of [websocket_endpoint] stands: suspended in
    [receive_text], or returned ([Ok]) or raised ([Raise]). *)
Inductive task : Type :=
| Receiving
| Closed (outcome : result unit).

(** The outer [try] fed with the successive outcomes of [receive_text]. *)
Fixpoint receive_loop (client_id : string) (websocket : WebSocket)
    (inbox : list (result string)) (st : State) : task * State :=
  match inbox with
  | [] => (Receiving, st)
  | received :: inbox' =>
      match loop_body client_id websocket received st with
      | (Ok _, st') => receive_loop client_id websocket inbox' st'
      | (Raise e, st') =>
          let '(outcome, st'') := finish websocket e st' in
          (Closed outcome, st'')
      end
  end.

(** [websocket_endpoint]: [manager.connect] comes before the [try]. *)
Definition websocket_endpoint (websocket : WebSocket) (client_id : string)
    (accept : result unit) (inbox : list (result string)) (st : State)
    : task * State :=
  match connect accept websocket st with
  | (Ok _, st') => receive_loop client_id websocket inbox st'
  | (Raise e, st') => (Closed (Raise e), st')
  end.

(** *** Several connections

    Each accepted socket has its own call of [websocket_endpoint]; the
    calls interleave at their [await]s and share the registry. *)
Inductive event : Type :=
| Opened (websocket : WebSocket) (client_id : string) (accept : result unit)
| Received (websocket : WebSocket) (received : result string).

Record System : Type := mkSystem {
  tasks : gmap WebSocket (string * task);
  state : State;
}.

Definition boot : System := mkSystem ∅ init.

(** An event is enabled when it is addressed to a socket object that is new
    ([Opened]) or whose call is suspended in [receive_text] ([Received]). *)
Definition sys_step (s : System) (ev : event) : option System :=
  match ev with
  | Opened ws client_id accept =>
      match tasks s !! ws with
      | Some _ => None
      | None =>
          let '(t, st') := websocket_endpoint ws client_id accept [] (state s) in
          Some (mkSystem (<[ws := (client_id, t)]> (tasks s)) st')
      end
  | Received ws received =>
      match tasks s !! ws with
      | Some (client_id, Receiving) =>
          let '(t, st') := receive_loop client_id ws [received] (state s) in
          Some (mkSystem (<[ws := (client_id, t)]> (tasks s)) st')
      | _ => None
      end
  end.

Fixpoint sys_run (s : System) (trace : list event) : option System :=
  match trace with
  | [] => Some s
  | ev :: trace' =>
      match sys_step s ev with
      | Some s' => sys_run s' trace'
      | None => None
      end
  end.

End Endpoint.

(** The number of connections a trace accepts, and the number it ends. *)
Definition is_accept (ev : event) : bool :=
  match ev with
  | Opened _ _ (Ok _) => true
  | _ => false
  end.

Definition is_termination (ev : event) : bool :=
  match ev with
  | Received _ (Raise _) => true
  | _ => false
  end.

Definition accepted (trace : list event) : nat := length (filter is_accept trace).
Definition terminated (trace : list event) : nat := length (filter is_termination trace).

Definition registry (s : System) : list WebSocket := active_connections (state s).

(** The registry holds each socket whose call is suspended in
    [receive_text], once, and nothing else. *)
Definition consistent (s : System) : Prop :=
  NoDup (registry s) ∧
  ∀ ws, ws ∈ registry s ↔ ∃ client_id, tasks s !! ws = Some (client_id, Receiving).

(** *** Broadcast

    [ConnectionManager.broadcast], run while no other task runs
    ([broadcast_among] below lets the other tasks in).  [send_text connection] is what [await
    connection.send_text(..)] does for that socket, return or raise; the
    message counts as handed to the socket either way. *)
Fixpoint broadcast_loop (send_text : WebSocket -> result unit) (message : json)
    (connections : list WebSocket) : M State unit :=
  match connections with
  | [] => ret tt
  | connection :: rest =>
      let* _ :=
        try_except
          (fun st => (send_text connection, sent_to connection message st))
          (fun e => if is_Exception e then Some (ret tt) else None) in
      broadcast_loop send_text message rest
  end.

Definition broadcast (send_text : WebSocket -> result unit) (message : json)
    : M State unit :=
  fun st => broadcast_loop send_text message (active_connections st) st.

(** *** Broadcast among the other tasks

    [broadcast] walks the registry itself, not a copy of it: the iterator
    of the [for] holds the index of the next socket, and while a
    [send_text] is awaited the other tasks run.  What they do to the
    state is a sequence of the three operations of the manager. *)
Inductive interference : Type :=
| Connects (websocket : WebSocket)
| Disconnects (websocket : WebSocket)
| Writes (websocket : WebSocket) (message : json).

Definition perform (st : State) (op : interference) : State :=
  match op with
  | Connects websocket => snd (connect (Ok tt) websocket st)
  | Disconnects websocket => snd (disconnect websocket st)
  | Writes websocket message => snd (send_personal_message message websocket st)
  end.

(** [ConnectionManager.broadcast] from the socket at [index] on.
    [others] lists, send after send, what the other tasks do while that
    send is awaited; once [others] is used up, no other task runs. *)
Fixpoint broadcast_among (send_text : WebSocket -> result unit) (message : json)
    (others : list (list interference)) (index : nat) : M State unit :=
  match others with
  | [] =>
      fun st =>
        broadcast_loop send_text message (drop index (active_connections st)) st
  | during :: others' =>
      fun st =>
        match active_connections st !! index with
        | None => (Ok tt, st)
        | Some connection =>
            (let* _ :=
               try_except
                 (fun st =>
                    (send_text connection,
                     foldl perform (sent_to connection message st) during))
                 (fun e => if is_Exception e then Some (ret tt) else None) in
             broadcast_among send_text message others' (S index)) st
        end
  end.

Definition is_write (op : interference) : bool :=
  match op with
  | Writes _ _ => true
  | _ => false
  end.

(** What the other tasks write. *)
Definition writes (during : list interference) : list (WebSocket * json) :=
  omap (fun op =>
          match op with
          | Writes websocket message => Some (websocket, message)
          | _ => None
          end) during.

(** The messages written when [message] goes to [connections] in turn
    and the other tasks write in between. *)
Fixpoint transcript (message : json) (connections : list WebSocket)
    (others : list (list interference)) : list (WebSocket * json) :=
  match connections with
  | [] => []
  | connection :: rest =>
      (connection, message)
      :: (writes (default [] (head others))
          ++ transcript message rest (tail others))%list
  end.


(** *** What a run writes

    The message that [handle_frame] writes for a frame, read off a run on
    a socket of its own. *)
Definition reply_of (json_loads : string -> option json) (exn_str : exn -> string)
    (data : string) : json :=
  match sent (snd (handle_frame json_loads exn_str EmptyString 0 data init)) with
  | (_, message) :: _ => message
  | [] => JNull
  end.

(** The frames of a trace, each with the socket it arrived on. *)
Definition frames_of (trace : list event) : list (WebSocket * string) :=
  omap (fun ev =>
          match ev with
          | Received ws (Ok data) => Some (ws, data)
          | _ => None
          end) trace.

(** The sockets a trace accepts and the sockets whose loop it ends, in
    order. *)
Definition opened (trace : list event) : list WebSocket :=
  omap (fun ev =>
          match ev with
          | Opened ws _ (Ok _) => Some ws
          | _ => None
          end) trace.

Definition closed (trace : list event) : list WebSocket :=
  omap (fun ev =>
          match ev with
          | Received ws (Raise _) => Some ws
          | _ => None
          end) trace.

(** [send_text] raises nothing but [Exception]s on the sockets of [l]. *)
Definition only_exceptions (send_text : WebSocket -> result unit)
    (l : list WebSocket) : bool :=
  forallb (fun ws =>
             match send_text ws with
             | Ok _ => true
             | Raise e => is_Exception e
             end) l.

(** *** The five envelopes the endpoint writes *)

Definition invalid_json : json :=
  dict [("error", JStr "Invalid JSON format")].

Definition invalid_format : json :=
  dict [("error", JStr "Invalid message format, expected ActionPayload")].

Definition acknowledgment : json :=
  dict [("status", JStr "action_received_but_no_direct_response")].

Definition observation (event_id : string) (timestamp details : json) : json :=
  dict [("eventId", JStr (event_id +:+ "_obs")); ("timestamp", timestamp);
        ("source", JStr "WebSocketGateway"); ("type", JStr "observation");
        ("observationType", JStr "ECHO_OBSERVATION"); ("details", details)].

Section Replies.

Variable json_loads : string -> option json.
Variable exn_str : exn -> string.

Definition server_error (e : exn) : json :=
  dict [("error", JStr ("Server error: " +:+ exn_str e))].

(** The frames, sorted by the branch of the endpoint that answers them,
    each with its answer. *)
Inductive reply_case (data : string) : json -> Prop :=
| reply_invalid_json :
    json_loads data = None ->
    reply_case data invalid_json
| reply_non_object v :
    json_loads data = Some v -> (forall md, v <> JObj md) ->
    reply_case data
      (match contains "type" v with
       | Raise e => server_error e
       | Ok true => server_error (TypeError_bad_index v)
       | Ok false => invalid_format
       end)
| reply_not_action md :
    json_loads data = Some (JObj md) ->
    md !! "type" <> Some (JStr "action") \/ md !! "actionType" = None ->
    reply_case data invalid_format
| reply_acknowledgment md a :
    json_loads data = Some (JObj md) ->
    md !! "type" = Some (JStr "action") ->
    md !! "actionType" = Some a -> a <> JStr "ECHO_ACTION" ->
    reply_case data acknowledgment
| reply_bad_event_id md v :
    json_loads data = Some (JObj md) ->
    md !! "type" = Some (JStr "action") ->
    md !! "actionType" = Some (JStr "ECHO_ACTION") ->
    md !! "eventId" = Some v -> (forall e, v <> JStr e) ->
    reply_case data (server_error (TypeError_concat v))
| reply_observation md e0 :
    json_loads data = Some (JObj md) ->
    md !! "type" = Some (JStr "action") ->
    md !! "actionType" = Some (JStr "ECHO_ACTION") ->
    default (JStr EmptyString) (md !! "eventId") = JStr e0 ->
    reply_case data
      (observation e0 (default (JStr EmptyString) (md !! "timestamp"))
         (default JNull (md !! "details"))).

End Replies.

End Gateway.

(** ** The subscription endpoints ([subscription.py]) *)

Module Subscription.
Import Py.

(** A Python number: an [int], or a [float], which is a binary64
    number. *)
Inductive number : Type :=
| PyInt (z : Z)
| PyFloat (f : spec_float).

(** Two subclasses of [ArithmeticError], hence of [Exception]. *)
Definition ZeroDivisionError : exn := OtherException "ZeroDivisionError".
Definition OverflowError : exn := OtherException "OverflowError".

(** [a / b] on two integers: the binary64 number nearest to the
    quotient of the integers themselves, ties going to the even
    mantissa; [OverflowError] when that number is beyond the floats,
    [ZeroDivisionError] when [b] is zero.  The quotient of zero has the
    sign of [b]. *)
Definition true_div (a b : Z) : result spec_float :=
  match a, b with
  | _, Z0 => Raise ZeroDivisionError
  | Z0, _ => Ok (S754_zero (b <? 0)%Z)
  | _, _ =>
      let '(q, e, l) := SFdiv_core_binary 53 1024 (Z.abs a) 0 (Z.abs b) 0 in
      match binary_round_aux 53 1024 (xorb (a <? 0)%Z (b <? 0)%Z) q e l with
      | S754_infinity _ => Raise OverflowError
      | f => Ok f
      end
  end.

(** The rational a float stands for; none for an infinity or a NaN. *)
Definition float_value (f : spec_float) : option Q :=
  match f with
  | S754_zero _ => Some 0%Q
  | S754_finite s m e => Some (inject_Z (cond_Zopp s (Zpos m)) * 2 ^ e)%Q
  | _ => None
  end.

Definition number_value (n : number) : option Q :=
  match n with
  | PyInt z => Some (inject_Z z)
  | PyFloat f => float_value f
  end.

(** Modelled from the spec: the [SubscriptionPlan] enumeration of
    [app.models], which is not among the sources: FREE and the paid
    tiers, a paid tier being known by its name. *)
Inductive SubscriptionPlan : Type :=
| FREE
| PAID (tier : string).

#[global] Instance SubscriptionPlan_eq_dec : EqDecision SubscriptionPlan.
Proof. solve_decision. Defined.

(** Modelled from the spec: the fields of the [Project] and [User] models
    of [app.models] that the endpoints read. *)
Record Project : Type := mkProject {
  total_size_kb : Z;
}.

Record User : Type := mkUser {
  subscription_plan : SubscriptionPlan;
  tokens_used : Z;
  tokens_limit : Z;
  projects : list Project;
}.

Record HTTPException : Type := mkHTTPException {
  status_code : Z;
  detail : string;
}.

Definition HTTP_503_SERVICE_UNAVAILABLE : Z := 503.

Section Endpoints.

(** What the endpoints receive and never look at: the database session
    and the request bodies, and the subscription schema of the response. *)
Variables AsyncSession CreateCheckoutSessionRequest CreatePortalSessionRequest
  SubscriptionSchema : Type.
(** [plan.value], the name of a plan. *)
Variable plan_value : SubscriptionPlan -> string.

Record SubscriptionInfo : Type := mkSubscriptionInfo {
  has_subscription : bool;
  subscription : option SubscriptionSchema;
  current_plan : string;
  can_upgrade : bool;
  usage : gmap string number;
}.

(** [GET /subscription].  The division in [storage_used_mb] is the one
    step of the handler that can raise; the other entries of the dict
    have no effect, so it is written first. *)
Definition get_subscription_info (db : AsyncSession) (current_user : User)
    : result SubscriptionInfo :=
  let plan := subscription_plan current_user in
  rbind
    (match projects current_user with
     | _ :: _ =>
         rbind (true_div (sum (map total_size_kb (projects current_user))) 1024)
               (fun f => Ok (PyFloat f))
     | [] => Ok (PyInt 0)
     end)
    (fun storage_used_mb =>
  let usage : gmap string number :=
    list_to_map
      [("projects", PyInt (Z.of_nat (length (projects current_user))));
       ("max_projects", PyInt (if decide (plan = FREE) then 1 else -1));
       ("tokens_used", PyInt (tokens_used current_user));
       ("tokens_limit", PyInt (tokens_limit current_user));
       ("storage_used_mb", storage_used_mb);
       ("storage_limit_mb", PyInt (if decide (plan = FREE) then 10 else 1024))] in
  Ok {| has_subscription := false;
        subscription := None;
        current_plan := plan_value plan;
        can_upgrade := bool_decide (plan = FREE);
        usage := usage |}).

(** [POST /checkout] *)
Definition create_checkout_session (db : AsyncSession)
    (checkout_request : CreateCheckoutSessionRequest) (current_user : User)
    : HTTPException + json :=
  inl (mkHTTPException HTTP_503_SERVICE_UNAVAILABLE
         "Payment processing is currently unavailable").

(** [POST /portal] *)
Definition create_portal_session (db : AsyncSession)
    (portal_request : CreatePortalSessionRequest) (current_user : User)
    : HTTPException + json :=
  inl (mkHTTPException HTTP_503_SERVICE_UNAVAILABLE
         "Customer portal is currently unavailable").

(** [POST /cancel] *)
Definition cancel_subscription (db : AsyncSession) (current_user : User)
    : HTTPException + json :=
  inl (mkHTTPException HTTP_503_SERVICE_UNAVAILABLE
         "Subscription management is currently unavailable").

(** [POST /reactivate] *)
Definition reactivate_subscription (db : AsyncSession) (current_user : User)
    : HTTPException + json :=
  inl (mkHTTPException HTTP_503_SERVICE_UNAVAILABLE
         "Subscription management is currently unavailable").

End Endpoints.

End Subscription.

(** ** The disabled payment client ([stripe_client.py]) *)

Module Stripe.
Import Py.

(** Modelled from the spec: the [SubscriptionStatus] enumeration of
    [app.models.subscription], which is not among the sources. *)
Inductive SubscriptionStatus : Type :=
| ACTIVE
| CANCELED
| PAST_DUE.

Definition disabled {A} : result A :=
  Raise (NotImplementedError "Stripe integration is disabled").

Definition create_customer (email : string) (name : option string)
    (metadata : option json) : result json := disabled.

Definition get_customer (customer_id : string) : json := JNull.

Definition update_customer (customer_id : string) (kwargs : gmap string json)
    : result json := disabled.

Definition create_checkout_session (customer_id price_id success_url cancel_url
    mode : string) (metadata : option json) (allow_promotion_codes : bool)
    : result json := disabled.

Definition create_portal_session (customer_id return_url : string)
    : result json := disabled.

Definition get_subscription (subscription_id : string) : json := JNull.

Definition cancel_subscription (subscription_id : string)
    (cancel_at_period_end : bool) : result json := disabled.

Definition reactivate_subscription (subscription_id : string)
    : result json := disabled.

Definition list_prices (active : bool) (product : option string) (limit : Z)
    : json := JArr [].

Definition get_payment_intent (payment_intent_id : string) : json := JNull.

Definition list_invoices (customer_id : string) (limit : Z)
    (starting_after : option string) : json := JArr [].

Definition construct_webhook_event (payload sig_header : string)
    : result json := disabled.

Definition map_subscription_status (stripe_status : string)
    : SubscriptionStatus := CANCELED.

End Stripe.

(** ** The settings ([config.py]) *)

Module Config.
Import Py.

(** [Settings.assemble_cors_origins], the [before] validator of
    [BACKEND_CORS_ORIGINS].  The first test is [v is None]; the second,
    [isinstance(v, str) and not v.startswith("[")]; the third,
    [isinstance(v, (list, str))]. *)
Definition assemble_cors_origins (v : json) : result json :=
  match v with
  | JNull => Ok (JArr [JStr "http://localhost:3000"])
  | JStr s =>
      if negb (startswith s "[") then
        Ok (JArr (map (fun i => JStr (strip i)) (split "," s)))
      else Ok v
  | JArr _ => Ok v
  | _ => Raise (ValueError v)
  end.

Definition is_None (v : json) : bool :=
  match v with JNull => true | _ => false end.
Definition isinstance_str (v : json) : bool :=
  match v with JStr _ => true | _ => false end.
Definition isinstance_list (v : json) : bool :=
  match v with JArr _ => true | _ => false end.

(** The number of times [c] occurs in [s]. *)
Definition occurrences (c : ascii) (s : string) : nat :=
  length (filter (fun x => x = c) (list_ascii_of_string s)).

(** [s] is empty, or neither its first nor its last character is a
    blank. *)
Definition is_stripped (s : string) : bool :=
  match list_ascii_of_string s with
  | [] => true
  | c :: l => negb (is_space c) && negb (is_space (List.last l c))
  end.

End Config.

(** ** The guest schema ([schemas/auth.py]) *)

Module Auth.
Import Py Py.Notations.

(** [string.ascii_lowercase + string.digits] *)
Definition alphabet : list ascii :=
  list_ascii_of_string "abcdefghijklmnopqrstuvwxyz0123456789".

Section Random.

(** The state of the generator behind the [random] module, and the draw of
    53 random bits that [random.random()] is built on. *)
Variable Gen : Type.
Variable genrand_res53 : Gen -> Z * Gen.

(** [random.random()]: 53 random bits over [2^53], a number in [[0, 1)]. *)
Definition random : M Gen Q :=
  fun g =>
    let '(bits, g') := genrand_res53 g in
    (Ok (Qmake (bits mod 2 ^ 53) (2 ^ 53)), g').

(** [random.choices(population, k=k)], that is
    [[population[floor(random() * n)] for i in repeat(None, k)]];
    the index is never negative.  The product is taken exactly here;
    CPython rounds it to binary64 before the floor, which stays in the
    same range but can give the next index at some draws. *)
Fixpoint choices (population : list ascii) (k : nat) : M Gen (list ascii) :=
  match k with
  | O => ret []
  | S k' =>
      let* r := random in
      let i := Qfloor (r * inject_Z (Z.of_nat (length population))) in
      let* c :=
        match population !! Z.to_nat i with
        | Some c => ret c
        | None => raise IndexError
        end in
      let* rest := choices population k' in
      ret (c :: rest)
  end.

(** [GuestUserCreate.generate_guest_credentials], the root validator that
    runs on the raw values before the fields are validated. *)
Definition generate_guest_credentials (values : gmap string json)
    : M Gen (gmap string json) :=
  let* values :=
    if negb (truthy (default JNull (values !! "username"))) then
      let* random_suffix := choices alphabet 6 in
      ret (<["username" := JStr ("guest_" +:+ string_of_list_ascii random_suffix)]> values)
    else ret values in
  let* values :=
    if negb (truthy (default JNull (values !! "email"))) then
      let* random_suffix := choices alphabet 8 in
      ret (<["email" :=
               JStr ("guest_" +:+ string_of_list_ascii random_suffix
                     +:+ "@guest.devinclone.app")]> values)
    else ret values in
  ret (<["is_guest" := JBool true]> values).

(** The record of the schema: [username: str], [email: str],
    [is_guest: bool = True]. *)
Record GuestUserCreate : Type := mkGuestUserCreate {
  username : string;
  email : string;
  is_guest : bool;
}.

(** The validation of the declared fields, on values that already have the
    declared types; anything else is a validation error ([None]). *)
Definition validate_fields (values : gmap string json) : option GuestUserCreate :=
  match values !! "username", values !! "email" with
  | Some (JStr u), Some (JStr e) =>
      match values !! "is_guest" with
      | Some (JBool b) => Some (mkGuestUserCreate u e b)
      | None => Some (mkGuestUserCreate u e true)
      | Some _ => None
      end
  | _, _ => None
  end.

(** Building a [GuestUserCreate] from raw values: the root validator,
    then the fields. *)
Definition create (values : gmap string json) : M Gen (option GuestUserCreate) :=
  let* values := generate_guest_credentials values in
  ret (validate_fields values).

End Random.

(** The patterns of the specification, for a whole-string match. *)
Inductive regex : Type :=
| Str (s : string)
| Class (p : ascii -> bool)
| Cat (r1 r2 : regex)
| Times (n : nat) (r : regex).

(** [s] without its prefix [lit], if it starts with it. *)
Fixpoint drop_prefix (lit s : string) : option string :=
  match lit with
  | EmptyString => Some s
  | String c lit' =>
      match s with
      | String c' s' => if Ascii.eqb c c' then drop_prefix lit' s' else None
      | EmptyString => None
      end
  end.

(** [re_match r s] consumes a prefix of [s] matching [r] and returns the
    rest; without alternation or star the prefix is unique. *)
Fixpoint re_match (r : regex) (s : string) : option string :=
  match r with
  | Str lit => drop_prefix lit s
  | Class p =>
      match s with
      | String c s' => if p c then Some s' else None
      | EmptyString => None
      end
  | Cat r1 r2 =>
      match re_match r1 s with
      | Some s' => re_match r2 s'
      | None => None
      end
  | Times n r' =>
      (fix rep (n : nat) (s : string) : option string :=
         match n with
         | O => Some s
         | S n' =>
             match re_match r' s with
             | Some s' => rep n' s'
             | None => None
             end
         end) n s
  end.

Definition fullmatch (r : regex) (s : string) : bool :=
  match re_match r s with
  | Some EmptyString => true
  | _ => false
  end.

(** [[a-z0-9]] *)
Definition lower_or_digit (c : ascii) : bool :=
  let n := nat_of_ascii c in
  ((97 <=? n)%nat && (n <=? 122)%nat) || ((48 <=? n)%nat && (n <=? 57)%nat).

(** [^guest_[a-z0-9]{6}$] *)
Definition guest_username_re : regex :=
  Cat (Str "guest_") (Times 6 (Class lower_or_digit)).

(** [^guest_[a-z0-9]{8}@guest\.devinclone\.app$] *)
Definition guest_email_re : regex :=
  Cat (Str "guest_") (Cat (Times 8 (Class lower_or_digit)) (Str "@guest.devinclone.app")).

End Auth.

(** ** Regular expressions of the validators

    The part of Python's [re] that [schemas/auth.py] uses: character
    classes, sequence, [+] and [$].  A string is held as the bytes of its
    UTF-8 encoding, so that the ASCII classes below read one character at a
    time. *)

Module Re.

Inductive pattern : Type :=
| Chars (p : ascii -> bool)
| Then (a b : pattern)
| Plus (a : pattern)
| Eol.

Definition newline : ascii := ascii_of_nat 10.

(** [$]: the end of the string, or just before a newline that ends it. *)
Definition at_eol (s : string) : bool :=
  match s with
  | EmptyString => true
  | String c EmptyString => Ascii.eqb c newline
  | _ => false
  end.

(** One or more rounds of [step], each followed by the continuation [k]
    or by another round; [fuel] bounds the number of further rounds. *)
Fixpoint iterate (step : string -> (string -> bool) -> bool)
    (k : string -> bool) (fuel : nat) (s : string) : bool :=
  step s (fun s' =>
            k s' || match fuel with
                    | O => false
                    | S fuel' => iterate step k fuel' s'
                    end).

(** [accepts r s k]: some prefix of [s] matches [r] and [k] holds of the
    rest. *)
Fixpoint accepts (r : pattern) (s : string) (k : string -> bool) : bool :=
  match r with
  | Chars p =>
      match s with
      | String c s' => p c && k s'
      | EmptyString => false
      end
  | Then a b => accepts a s (fun s' => accepts b s' k)
  | Plus a => iterate (accepts a) k (String.length s) s
  | Eol => at_eol s && k s
  end.

(** [re.match(r, s)] is not [None]. *)
Definition re_match (r : pattern) (s : string) : bool :=
  accepts r s (fun _ => true).

(** [re.search(r, s)] is not [None]. *)
Fixpoint re_search (r : pattern) (s : string) : bool :=
  re_match r s ||
  match s with
  | String _ s' => re_search r s'
  | EmptyString => false
  end.

Definition in_range (lo hi : nat) (c : ascii) : bool :=
  let n := nat_of_ascii c in (lo <=? n)%nat && (n <=? hi)%nat.

(** [[A-Z]], [[a-z]], [[0-9]] and [[a-zA-Z0-9_-]] *)
Definition upper : ascii -> bool := in_range 65 90.
Definition lower : ascii -> bool := in_range 97 122.
Definition digit : ascii -> bool := in_range 48 57.
Definition word (c : ascii) : bool :=
  lower c || upper c || digit c || Ascii.eqb c "_" || Ascii.eqb c "-".

(** A byte that continues a character begun before it. *)
Definition is_continuation (c : ascii) : bool := in_range 128 191 c.

(** [len(s)]: the number of characters. *)
Fixpoint len (s : string) : nat :=
  match s with
  | EmptyString => 0
  | String c s' => ((if is_continuation c then 0 else 1) + len s')%nat
  end.

End Re.

(** ** The validators of the sign-up and password-reset schemas *)

Module UserSignUp.
Import Py Re.

(** [^[a-zA-Z0-9_-]+$], matched from the start of the string. *)
Definition username_re : pattern := Then (Plus (Chars word)) Eol.

Definition username_alphanumeric (v : string) : result string :=
  if negb (re_match username_re v) then
    Raise (ValueError (JStr "Username must be alphanumeric with only _ and - allowed"))
  else Ok v.

Definition password_strength (v : string) : result string :=
  if (len v <? 8)%nat then
    Raise (ValueError (JStr "Password must be at least 8 characters"))
  else if negb (re_search (Chars upper) v) then
    Raise (ValueError (JStr "Password must contain at least one uppercase letter"))
  else if negb (re_search (Chars lower) v) then
    Raise (ValueError (JStr "Password must contain at least one lowercase letter"))
  else if negb (re_search (Chars digit) v) then
    Raise (ValueError (JStr "Password must contain at least one digit"))
  else Ok v.

End UserSignUp.

Module PasswordResetConfirm.
Import Py Re.

Definition password_strength (v : string) : result string :=
  if (len v <? 8)%nat then
    Raise (ValueError (JStr "Password must be at least 8 characters"))
  else if negb (re_search (Chars upper) v) then
    Raise (ValueError (JStr "Password must contain at least one uppercase letter"))
  else if negb (re_search (Chars lower) v) then
    Raise (ValueError (JStr "Password must contain at least one lowercase letter"))
  else if negb (re_search (Chars digit) v) then
    Raise (ValueError (JStr "Password must contain at least one digit"))
  else Ok v.

End PasswordResetConfirm.

(** ** The listings of the subscription API ([subscription.py]) *)

Module Listing.
Import Py.

Section Endpoints.

Variables AsyncSession User PaymentSchema : Type.

Record PaymentList : Type := mkPaymentList {
  payments : list PaymentSchema;
  total : Z;
  page : Z;
  page_size : Z;
}.

(** [GET /prices] *)
Definition list_available_prices (db : AsyncSession) (current_user : User)
    : json := JArr [].

(** [GET /payments], the handler. *)
Definition list_payments (db : AsyncSession) (page page_size : Z)
    (current_user : User) : PaymentList :=
  mkPaymentList [] 0 page page_size.

(** [POST /webhook] *)
Definition stripe_webhook (request : json) (db : AsyncSession) : json :=
  dict [("message", JStr "Webhook endpoint disabled")].

(** A query parameter declared [Query(dflt, ge=.., le=..)]: the value sent,
    or the default, and [None] when a value sent is out of bounds. *)
Definition Query (dflt : Z) (ge : option Z) (le : option Z)
    (sent : option Z) : option Z :=
  match sent with
  | None => Some dflt
  | Some v =>
      if match ge with Some lo => (v <? lo)%Z | None => false end
         || match le with Some hi => (hi <? v)%Z | None => false end
      then None
      else Some v
  end.

(** [GET /payments] as the router runs it: [page: int = Query(1, ge=1)],
    [page_size: int = Query(20, ge=1, le=100)]; [None] is the rejection
    of the request before the handler is called. *)
Definition get_payments (db : AsyncSession) (page page_size : option Z)
    (current_user : User) : option PaymentList :=
  match Query 1 (Some 1%Z) None page, Query 20 (Some 1%Z) (Some 100%Z) page_size with
  | Some p, Some n => Some (list_payments db p n current_user)
  | _, _ => None
  end.

End Endpoints.

End Listing.

(** ** The application ([main.py]) *)

Module Main.
Import Py.

Record JSONResponse : Type := mkJSONResponse {
  status_code : Z;
  content : json;
}.

Section App.

(** [str(exc)], and the request, which the handler does not read. *)
Variable exn_str : exn -> string.
Variable Request : Type.

(** [global_exception_handler], under the setting [DEBUG]. *)
Definition global_exception_handler (DEBUG : bool) (request : Request)
    (exc : exn) : JSONResponse :=
  mkJSONResponse 500
    (dict [("detail", JStr "Internal server error");
           ("message", JStr (if DEBUG then exn_str exc else "An error occurred"))]).

(** [GET /] under the setting [VERSION], and [GET /health]. *)
Definition root (VERSION : string) : json :=
  dict [("message", JStr "Welcome to Devin Clone API"); ("version", JStr VERSION)].

Definition health_check : json := dict [("status", JStr "healthy")].

End App.

End Main.

(** ** The database URL ([db/session.py]) *)

Module Session.
Import Py.

(** [s.replace(old, new)] for [old] not empty: the occurrences of [old] are
    taken from left to right, without overlap.  [skip] is the number of
    characters of an occurrence still to pass over. *)
Fixpoint replace_from (old new : string) (skip : nat) (s : string) : string :=
  match s with
  | EmptyString => EmptyString
  | String c s' =>
      match skip with
      | S skip' => replace_from old new skip' s'
      | O =>
          if String.prefix old s
          then new +:+ replace_from old new (String.length old - 1) s'
          else String c (replace_from old new 0 s')
      end
  end.

Definition replace (old new s : string) : string := replace_from old new 0 s.

(** [sqlite_url], from [settings.DATABASE_URL]. *)
Definition sqlite_url (DATABASE_URL : string) : string :=
  replace "postgresql+asyncpg" "sqlite+aiosqlite" DATABASE_URL.

(** The two driver names, and the suffixes of a string, the longest
    first. *)
Definition postgres_driver : string := "postgresql+asyncpg".
Definition sqlite_driver : string := "sqlite+aiosqlite".

Fixpoint tails (s : string) : list string :=
  match s with
  | EmptyString => [EmptyString]
  | String _ s' => s :: tails s'
  end.

End Session.

(** ** A reference decoder for the examples

    [json.loads] is a parameter of the gateway.  The examples instantiate
    it with this decoder of a fragment of JSON: [null], [true], [false],
    integers, strings without escapes, arrays and objects, with blanks
    between tokens.  It fails ([None]) on everything else. *)

Module JsonText.
Import Py.

Definition quote : ascii := ascii_of_nat 34.

(** Frame texts are written with apostrophes in place of the double
    quotes of JSON; [text] puts the double quotes back. *)
Fixpoint text (s : string) : string :=
  match s with
  | EmptyString => EmptyString
  | String c s' => String (if Ascii.eqb c "'" then quote else c) (text s')
  end.

Definition is_blank (c : ascii) : bool :=
  Ascii.eqb c " " || Ascii.eqb c (ascii_of_nat 9)
  || Ascii.eqb c (ascii_of_nat 10) || Ascii.eqb c (ascii_of_nat 13).

Fixpoint skip_blanks (s : string) : string :=
  match s with
  | String c s' => if is_blank c then skip_blanks s' else s
  | EmptyString => EmptyString
  end.

Definition digit_value (c : ascii) : option Z :=
  let n := nat_of_ascii c in
  if ((48 <=? n)%nat && (n <=? 57)%nat) then Some (Z.of_nat (n - 48)) else None.

(** The digits at the head of [s], read in base ten after [acc]. *)
Fixpoint read_digits (acc : Z) (s : string) : Z * string :=
  match s with
  | String c s' =>
      match digit_value c with
      | Some d => read_digits (10 * acc + d)%Z s'
      | None => (acc, s)
      end
  | EmptyString => (acc, s)
  end.

Definition starts_with_digit (s : string) : bool :=
  match s with
  | String c _ => bool_decide (is_Some (digit_value c))
  | EmptyString => false
  end.

(** An integer literal: an optional minus sign, then [0] alone or digits
    that do not start with [0]; a fraction or an exponent is outside the
    fragment. *)
Definition read_int (s : string) : option (Z * string) :=
  let '(negative, body) :=
    match s with
    | String "-" s' => (true, s')
    | _ => (false, s)
    end in
  match body with
  | String c body' =>
      match digit_value c with
      | Some _ =>
          if Ascii.eqb c "0" && starts_with_digit body' then None
          else
            let '(n, rest) := read_digits 0 body in
            match rest with
            | String "." _ | String "e" _ | String "E" _ => None
            | _ => Some (if negative then (- n)%Z else n, rest)
            end
      | None => None
      end
  | EmptyString => None
  end.

(** The characters up to the closing double quote; a backslash or a
    control character is outside the fragment. *)
Fixpoint read_string (s : string) : option (string * string) :=
  match s with
  | EmptyString => None
  | String c s' =>
      if Ascii.eqb c quote then Some (EmptyString, s')
      else if Ascii.eqb c "\" || (nat_of_ascii c <? 32)%nat then None
      else match read_string s' with
           | Some (body, rest) => Some (String c body, rest)
           | None => None
           end
  end.

Definition expect (word : string) (v : json) (s : string) : option (json * string) :=
  if String.prefix word s
  then Some (v, String.substring (String.length word)
                  (String.length s - String.length word) s)
  else None.

Fixpoint read_value (fuel : nat) (s : string) : option (json * string) :=
  match fuel with
  | O => None
  | S fuel' =>
      match skip_blanks s with
      | String "n" _ as w => expect "null" JNull w
      | String "t" _ as w => expect "true" (JBool true) w
      | String "f" _ as w => expect "false" (JBool false) w
      | String "[" s1 =>
          match skip_blanks s1 with
          | String "]" s2 => Some (JArr [], s2)
          | _ =>
              match read_items fuel' s1 with
              | Some (items, rest) => Some (JArr items, rest)
              | None => None
              end
          end
      | String "{" s1 =>
          match skip_blanks s1 with
          | String "}" s2 => Some (JObj ∅, s2)
          | _ =>
              match read_members fuel' s1 ∅ with
              | Some (m, rest) => Some (JObj m, rest)
              | None => None
              end
          end
      | String c s1 as w =>
          if Ascii.eqb c quote then
            match read_string s1 with
            | Some (body, rest) => Some (JStr body, rest)
            | None => None
            end
          else
            match read_int w with
            | Some (n, rest) => Some (JInt n, rest)
            | None => None
            end
      | EmptyString => None
      end
  end
with read_items (fuel : nat) (s : string) : option (list json * string) :=
  match fuel with
  | O => None
  | S fuel' =>
      match read_value fuel' s with
      | Some (v, rest) =>
          match skip_blanks rest with
          | String "," rest' =>
              match read_items fuel' rest' with
              | Some (vs, rest'') => Some (v :: vs, rest'')
              | None => None
              end
          | String "]" rest' => Some ([v], rest')
          | _ => None
          end
      | None => None
      end
  end
with read_members (fuel : nat) (s : string) (acc : gmap string json)
    : option (gmap string json * string) :=
  match fuel with
  | O => None
  | S fuel' =>
      match skip_blanks s with
      | String c s1 =>
          if Ascii.eqb c quote then
            match read_string s1 with
            | Some (key, s2) =>
                match skip_blanks s2 with
                | String ":" s3 =>
                    match read_value fuel' s3 with
                    | Some (v, s4) =>
                        match skip_blanks s4 with
                        | String "," s5 => read_members fuel' s5 (<[key := v]> acc)
                        | String "}" s5 => Some (<[key := v]> acc, s5)
                        | _ => None
                        end
                    | None => None
                    end
                | _ => None
                end
            | None => None
            end
          else None
      | EmptyString => None
      end
  end.

(** The whole text must be one value, blanks apart. *)
Definition loads (s : string) : option json :=
  match read_value (2 * String.length s + 2) s with
  | Some (v, rest) =>
      match skip_blanks rest with
      | EmptyString => Some v
      | _ => None
      end
  | None => None
  end.

(** [type(v).__name__] *)
Definition type_name (v : json) : string :=
  match v with
  | JNull => "NoneType"
  | JBool _ => "bool"
  | JInt _ => "int"
  | JFloat _ => "float"
  | JStr _ => "str"
  | JArr _ => "list"
  | JObj _ => "dict"
  end.

(** [str(e)].  The errors of the operations on a decoded frame, which are
    those the endpoint reports to the client, have the text that CPython
    3.11 gives them; the other exceptions are never turned into text in
    the examples, and the name of their class stands for it. *)
Definition exn_str (e : exn) : string :=
  match e with
  | WebSocketDisconnect => "WebSocketDisconnect"
  | JSONDecodeError => "JSONDecodeError"
  | TypeError_not_iterable v =>
      "argument of type '" +:+ type_name v +:+ "' is not iterable"
  | TypeError_bad_index v =>
      match v with
      | JStr _ => "string indices must be integers, not 'str'"
      | JArr _ => "list indices must be integers or slices, not str"
      | _ => "'" +:+ type_name v +:+ "' object is not subscriptable"
      end
  | TypeError_concat v =>
      match v with
      | JArr _ =>
          "can only concatenate list (not "
          +:+ String quote ("str" +:+ String quote ") to list")
      | _ => "unsupported operand type(s) for +: '" +:+ type_name v +:+ "' and 'str'"
      end
  | AttributeError_get v =>
      "'" +:+ type_name v +:+ "' object has no attribute 'get'"
  | KeyError key => key
  | ValueError _ | ValueError_not_in_list => "ValueError"
  | IndexError => "IndexError"
  | NotImplementedError msg => msg
  | OtherException name => name
  | CancelledError => "CancelledError"
  end.

End JsonText.

(** ** Data of the examples *)

Module Examples.
Import Py.

(** The envelope of the specification's echo example, and its text. *)
Definition echo_action : gmap string json :=
  list_to_map
    [("type", JStr "action"); ("actionType", JStr "ECHO_ACTION");
     ("eventId", JStr "e1"); ("timestamp", JStr "t1");
     ("details", dict [("x", JInt 1)])].

Definition echo_frame : string :=
  JsonText.text
    "{'type':'action','actionType':'ECHO_ACTION','eventId':'e1','timestamp':'t1','details':{'x':1}}".

(** An echo action that names neither an event nor a time. *)
Definition bare_echo_action : gmap string json :=
  list_to_map [("type", JStr "action"); ("actionType", JStr "ECHO_ACTION")].

Definition bare_echo_frame : string :=
  JsonText.text "{'type':'action','actionType':'ECHO_ACTION'}".

Definition invalid_json_error : json :=
  dict [("error", JStr "Invalid JSON format")].

(** Three sockets are accepted and a fourth is refused; frames arrive on
    the first and the third, and the client of the second goes away. *)
Definition busy_trace : list Gateway.event :=
  [Gateway.Opened 1 "alice" (Ok tt);
   Gateway.Opened 2 "bob" (Ok tt);
   Gateway.Received 1 (Ok echo_frame);
   Gateway.Opened 3 "unknown" (Ok tt);
   Gateway.Opened 4 "dave" (Raise (OtherException "RuntimeError"));
   Gateway.Received 2 (Raise WebSocketDisconnect);
   Gateway.Received 3 (Ok "not json")].

(** The users of the usage example: two projects of 1024 KB each. *)
Definition free_user : Subscription.User :=
  Subscription.mkUser Subscription.FREE 500 1000
    [Subscription.mkProject 1024; Subscription.mkProject 1024].

Definition paid_user : Subscription.User :=
  Subscription.mkUser (Subscription.PAID "pro") 500 1000
    [Subscription.mkProject 1024; Subscription.mkProject 1024].

Definition plan_value (plan : Subscription.SubscriptionPlan) : string :=
  match plan with
  | Subscription.FREE => "free"
  | Subscription.PAID tier => tier
  end.

(** A user whose one project takes [2^53 + 1] KB, and a user whose one
    project takes [2^1034] KB. *)
Definition large_user : Subscription.User :=
  Subscription.mkUser Subscription.FREE 500 1000
    [Subscription.mkProject (2 ^ 53 + 1)].

Definition huge_user : Subscription.User :=
  Subscription.mkUser Subscription.FREE 500 1000
    [Subscription.mkProject (2 ^ 1034)].

(** A linear congruential generator on 64 bits, whose 53 high bits are
    the draw. *)
Definition lcg (seed : Z) : Z * Z :=
  let seed' := ((6364136223846793005 * seed + 1442695040888963407) mod 2 ^ 64)%Z in
  ((seed' / 2 ^ 11)%Z, seed').

(** A guest request that asks not to be a guest. *)
Definition not_a_guest : gmap string json :=
  {[ "is_guest" := JBool false ]}.

(** Three registered sockets; the transport of the second is broken, and
    the task is cancelled while it writes to the second. *)
Definition three_sockets : Gateway.State := Gateway.mkState [1; 2; 3] [].

Definition broken_second (ws : Gateway.WebSocket) : result unit :=
  if (ws =? 2)%nat then Raise (OtherException "ConnectionClosed") else Ok tt.

Definition cancelled_at_second (ws : Gateway.WebSocket) : result unit :=
  if (ws =? 2)%nat then Raise CancelledError else Ok tt.

Definition notice : json := dict [("notice", JStr "maintenance")].

(** A request that brings its own credentials, and a field of its own. *)
Definition alice_request : gmap string json :=
  list_to_map [("username", JStr "alice"); ("email", JStr "alice@example.org");
               ("locale", JStr "fr"); ("is_guest", JBool false)].

(** What the root validator makes of [not_a_guest] from the seed 42. *)
Definition drawn_guest : gmap string json :=
  list_to_map [("username", JStr "guest_uiowya");
               ("email", JStr "guest_aframt7l@guest.devinclone.app");
               ("is_guest", JBool true)].

(** The same two projects, in either order. *)
Definition small_first : Subscription.User :=
  Subscription.mkUser Subscription.FREE 500 1000
    [Subscription.mkProject 512; Subscription.mkProject 1536].

Definition large_first : Subscription.User :=
  Subscription.mkUser Subscription.FREE 500 1000
    [Subscription.mkProject 1536; Subscription.mkProject 512].

End Examples.

(* ===================================================================== *)
(** * Part II. Properties                                                *)
(* ===================================================================== *)

(** ** [list.remove] *)

Module ListRemoveFacts.
Import Py.

Section Remove.
Context {A : Type} `{EqDecision A}.
Implicit Types (x y : A) (l : list A).

Lemma list_remove_None x l : list_remove x l = None ↔ x ∉ l.
Proof.
  induction l as [|y l IH]; simpl.
  - split; [intros _; apply not_elem_of_nil | done].
  - destruct (decide (x = y)) as [->|Hne].
    + split; [done | intros Hn; exfalso; apply Hn; left].
    + rewrite not_elem_of_cons. destruct (list_remove x l) eqn:E.
      * split; [done | intros [_ Hn]; apply IH in Hn; done].
      * split; [intros _; split; [done | by apply IH] | done].
Qed.

Lemma list_remove_Some x l :
  x ∈ l → ∃ l', list_remove x l = Some l' ∧ l ≡ₚ x :: l'.
Proof.
  induction l as [|y l IH]; simpl; intros Hin.
  - by apply elem_of_nil in Hin.
  - destruct (decide (x = y)) as [->|Hne]; [by eexists|].
    apply elem_of_cons in Hin as [?|Hin]; [done|].
    destruct (IH Hin) as (l' & -> & Hp). eexists; split; [done|].
    rewrite Hp. apply Permutation_swap.
Qed.

Lemma list_remove_length x l l' :
  list_remove x l = Some l' → length l = S (length l').
Proof.
  intros Hr. destruct (decide (x ∈ l)) as [Hin|Hn].
  - destruct (list_remove_Some x l Hin) as (l'' & Hr' & Hp).
    rewrite Hr in Hr'. injection Hr' as <-. by rewrite Hp.
  - apply list_remove_None in Hn. congruence.
Qed.

Lemma list_remove_NoDup x l l' :
  NoDup l → list_remove x l = Some l' →
  NoDup l' ∧ ∀ y, y ∈ l' ↔ y ∈ l ∧ y ≠ x.
Proof.
  intros Hnd Hr. destruct (decide (x ∈ l)) as [Hin|Hn].
  - destruct (list_remove_Some x l Hin) as (l'' & Hr' & Hp).
    rewrite Hr in Hr'. injection Hr' as <-.
    rewrite Hp in Hnd. apply NoDup_cons in Hnd as [Hx Hnd].
    split; [done|]. intros y. rewrite Hp, elem_of_cons.
    split; [intros Hy; split; [by right | by intros ->] | by intros [[?|?] ?]].
  - apply list_remove_None in Hn. congruence.
Qed.

End Remove.

End ListRemoveFacts.

(** ** The event gateway *)

Module GatewayFacts.
Import Py Py.Notations Gateway ListRemoveFacts Examples.

(** Closes the branch of a frame where the operation on [v] may raise: it
    raises an [Exception], in any state. *)
Ltac raised v :=
  right; eexists; split;
  [ intros ?; reflexivity
  | destruct v; simpl in *; simplify_eq; done ].

Section Frames.
Variable json_loads : string -> option json.
Variable exn_str : exn -> string.
Implicit Types (st : State) (ws : WebSocket) (md : gmap string json).

(** The body of the inner [try] either writes one message and returns, or
    raises an [Exception] having written nothing; which of the two, and
    what is written, depends on the frame only. *)
Lemma process_message_cases client_id ws data :
  (∃ message, ∀ st,
      process_message json_loads client_id ws data st
      = (Ok tt, sent_to ws message st)) ∨
  (∃ e, (∀ st, process_message json_loads client_id ws data st = (Raise e, st))
        ∧ is_Exception e = true).
Proof.
  unfold process_message, bind, lift, ret, raise, send_personal_message.
  destruct (json_loads data) as [v|]; [|right; by eexists].
  destruct (is_action_payload v) as [[]|e] eqn:Hact; simpl.
  - unfold add_event, bind, lift, ret.
    destruct (get v "actionType" JNull) as [at_|e] eqn:Hat; [|raised v].
    destruct (eq_str at_ "ECHO_ACTION"); [|left; by eexists].
    destruct (get v "details" JNull) as [d|e] eqn:Hd; [|raised v].
    simpl.
    destruct (get v "eventId" (JStr EmptyString)) as [eid|e] eqn:He;
      simpl; [|raised v].
    destruct (add_str eid "_obs") as [eid'|e] eqn:He'; [|raised eid].
    destruct (get v "timestamp" (JStr EmptyString)) as [ts|e] eqn:Hts;
      simpl; [|raised v].
    left; by eexists.
  - left; by eexists.
  - right. eexists; split; [done|].
    unfold is_action_payload in Hact.
    destruct v; simpl in Hact; try (by inversion Hact).
    all: repeat (case_match; simpl in *; simplify_eq); done.
Qed.

(** Every frame is answered by exactly one message, and the loop goes on. *)
Lemma handle_frame_replies client_id ws data :
  ∃ message, ∀ st,
    handle_frame json_loads exn_str client_id ws data st
    = (Ok tt, sent_to ws message st).
Proof.
  unfold handle_frame, try_except.
  destruct (process_message_cases client_id ws data) as [[m Hm]|(e & Hm & He)].
  - exists m. intros st. by rewrite Hm.
  - destruct e; simpl in *; try done;
      eexists; intros st; rewrite Hm; reflexivity.
Qed.

Lemma loop_body_frame client_id ws data :
  ∃ message, ∀ st,
    loop_body json_loads exn_str client_id ws (Ok data) st
    = (Ok tt, sent_to ws message st).
Proof. apply handle_frame_replies. Qed.


(** The reply to an echo action whose [eventId], if there is one, is a
    string [e0]; [e0] is empty if there is none. *)
Lemma echo_reply client_id ws data md e0 st :
  json_loads data = Some (JObj md) →
  md !! "type" = Some (JStr "action") →
  md !! "actionType" = Some (JStr "ECHO_ACTION") →
  default (JStr EmptyString) (md !! "eventId") = JStr e0 →
  loop_body json_loads exn_str client_id ws (Ok data) st =
    (Ok tt,
     sent_to ws
       (dict [("eventId", JStr (e0 +:+ "_obs"));
              ("timestamp", default (JStr EmptyString) (md !! "timestamp"));
              ("source", JStr "WebSocketGateway");
              ("type", JStr "observation");
              ("observationType", JStr "ECHO_OBSERVATION");
              ("details", default JNull (md !! "details"))]) st).
Proof.
  intros Hl Hty Hat He.
  unfold loop_body, handle_frame, try_except, process_message,
    bind, lift, ret, raise. simpl.
  rewrite Hl. unfold is_action_payload. simpl. rewrite Hty, Hat. simpl.
  unfold add_event, bind, lift, ret. simpl. rewrite Hat. simpl.
  rewrite He. simpl. done.
Qed.

(** An action of any other type is acknowledged, not observed. *)
Lemma unknown_action_acknowledged client_id ws data md (action_type : json) st :
  json_loads data = Some (JObj md) →
  md !! "type" = Some (JStr "action") →
  md !! "actionType" = Some action_type →
  eq_str action_type "ECHO_ACTION" = false →
  loop_body json_loads exn_str client_id ws (Ok data) st =
    (Ok tt,
     sent_to ws (dict [("status", JStr "action_received_but_no_direct_response")]) st).
Proof.
  intros Hl Hty Hat Hne.
  unfold loop_body, handle_frame, try_except, process_message,
    bind, lift, ret, raise. simpl.
  rewrite Hl. unfold is_action_payload. simpl. rewrite Hty, Hat. simpl.
  unfold add_event, bind, lift, ret. simpl. rewrite Hat. simpl.
  rewrite Hne. done.
Qed.

(** An echo action whose [eventId] is not a string cannot be suffixed: the
    [TypeError] is reported as a server error. *)
Lemma non_string_event_id client_id ws data md (v : json) st :
  json_loads data = Some (JObj md) →
  md !! "type" = Some (JStr "action") →
  md !! "actionType" = Some (JStr "ECHO_ACTION") →
  md !! "eventId" = Some v →
  (∀ e, v ≠ JStr e) →
  loop_body json_loads exn_str client_id ws (Ok data) st =
    (Ok tt,
     sent_to ws
       (dict [("error", JStr ("Server error: " +:+ exn_str (TypeError_concat v)))])
       st).
Proof.
  intros Hl Hty Hat He Hv.
  unfold loop_body, handle_frame, try_except, process_message,
    bind, lift, ret, raise. simpl.
  rewrite Hl. unfold is_action_payload. simpl. rewrite Hty, Hat. simpl.
  unfold add_event, bind, lift, ret. simpl. rewrite Hat. simpl.
  rewrite He. simpl. destruct v; try done. by destruct (Hv s).
Qed.

(** A dict that is not an action payload is rejected as such. *)
Lemma not_an_action client_id ws data md st :
  json_loads data = Some (JObj md) →
  md !! "type" ≠ Some (JStr "action") ∨ md !! "actionType" = None →
  loop_body json_loads exn_str client_id ws (Ok data) st =
    (Ok tt,
     sent_to ws
       (dict [("error", JStr "Invalid message format, expected ActionPayload")])
       st).
Proof.
  intros Hl Hno.
  assert (is_action_payload (JObj md) = Ok false) as Hact.
  { unfold is_action_payload. simpl.
    destruct (md !! "type") as [ty|] eqn:Hty; simpl; [|done].
    destruct (eq_str ty "action") eqn:E; [|done].
    destruct ty; simpl in E; try done. apply String.eqb_eq in E as ->.
    destruct Hno as [Hno | Hno]; [done | by rewrite Hno]. }
  unfold loop_body, handle_frame, try_except, process_message,
    bind, lift, ret, raise. simpl.
  rewrite Hl, Hact. done.
Qed.


(** Once the socket is registered, the cleanup removes it and raises
    nothing of its own. *)
Lemma finish_registered ws e st :
  ws ∈ active_connections st →
  ∃ l, list_remove ws (active_connections st) = Some l ∧
       finish ws e st
       = (if is_Exception e then Ok tt else Raise e, mkState l (sent st)).
Proof.
  intros Hin. destruct (list_remove_Some ws _ Hin) as (l & Hr & _).
  exists l. split; [done|].
  unfold finish, bind, disconnect. rewrite Hr. by destruct e.
Qed.

(** *** The registry across interleaved connections *)

Lemma accepted_cons ev trace :
  accepted (ev :: trace)
  = ((if is_accept ev then 1 else 0) + accepted trace)%nat.
Proof. unfold accepted. rewrite filter_cons. by destruct (is_accept ev). Qed.

Lemma terminated_cons ev trace :
  terminated (ev :: trace)
  = ((if is_termination ev then 1 else 0) + terminated trace)%nat.
Proof.
  unfold terminated. rewrite filter_cons. by destruct (is_termination ev).
Qed.

Lemma consistent_boot : consistent boot.
Proof.
  split; [apply NoDup_nil_2|]. intros ws. split.
  - intros H. by apply elem_of_nil in H.
  - intros [cid H]. simpl in H. by rewrite lookup_empty in H.
Qed.

(** One event keeps the registry consistent; an accepted connection adds
    one entry, a terminated loop takes one away. *)
Lemma sys_step_consistent s ev s' :
  consistent s →
  sys_step json_loads exn_str s ev = Some s' →
  consistent s' ∧
  (length (registry s') + (if is_termination ev then 1 else 0)
   = length (registry s) + (if is_accept ev then 1 else 0))%nat.
Proof.
  intros [Hnd Hreg] Hstep.
  destruct ev as [ws cid accept | ws received]; simpl in Hstep.
  - destruct (tasks s !! ws) eqn:Hws; [done|].
    assert (ws ∉ registry s) as Hfresh.
    { intros Hin. apply Hreg in Hin as [? Hin]. congruence. }
    destruct accept as [[]|e]; simpl in Hstep; injection Hstep as <-.
    + split; [split|]; unfold registry in *; simpl.
      * apply NoDup_app. split; [done|]. split; [|apply NoDup_singleton].
        intros x Hx ->%list_elem_of_singleton. done.
      * intros ws'. rewrite elem_of_app, list_elem_of_singleton, Hreg.
        destruct (decide (ws' = ws)) as [->|Hne].
        -- rewrite lookup_insert_eq. split; [by eexists | by right].
        -- rewrite lookup_insert_ne by done. split; [by intros [?|?] | by left].
      * rewrite length_app. simpl. lia.
    + split; [split|]; unfold registry in *; simpl; [done| |lia].
      intros ws'. rewrite Hreg.
      destruct (decide (ws' = ws)) as [->|Hne].
      * rewrite lookup_insert_eq, Hws. split; by intros [? ?].
      * by rewrite lookup_insert_ne.
  - destruct (tasks s !! ws) as [[cid [|]]|] eqn:Hws; try done.
    destruct received as [data|e]; simpl in Hstep.
    + destruct (loop_body_frame cid ws data) as [m Hm].
      unfold loop_body, bind, lift in Hm, Hstep. rewrite Hm in Hstep.
      injection Hstep as <-. rewrite insert_id by done.
      split; [split|]; unfold registry in *; simpl; [done|done|lia].
    + assert (ws ∈ registry s) as Hin by (apply Hreg; by eexists).
      destruct (finish_registered ws e _ Hin) as (l & Hr & Hf).
      unfold loop_body, bind, lift in Hstep. rewrite Hf in Hstep.
      injection Hstep as <-.
      destruct (list_remove_NoDup ws _ l Hnd Hr) as [Hnd' Hmem].
      split; [split|]; unfold registry in *; simpl; [done| |].
      * intros ws'. rewrite Hmem, Hreg.
        destruct (decide (ws' = ws)) as [->|Hne].
        -- rewrite lookup_insert_eq. split; [by intros [_ ?] | by intros [? ?]].
        -- rewrite lookup_insert_ne by done. split; [by intros [? _] | done].
      * apply list_remove_length in Hr. lia.
Qed.

Lemma sys_run_consistent trace : ∀ s s',
  consistent s →
  sys_run json_loads exn_str s trace = Some s' →
  consistent s' ∧
  (length (registry s') + terminated trace
   = length (registry s) + accepted trace)%nat.
Proof.
  induction trace as [|ev trace IH]; intros s s' Hc Hrun; simpl in Hrun.
  - injection Hrun as <-. split; [done|]. unfold accepted, terminated. simpl. lia.
  - destruct (sys_step json_loads exn_str s ev) as [s1|] eqn:Hstep; [|done].
    destruct (sys_step_consistent _ _ _ Hc Hstep) as [Hc1 Hlen1].
    destruct (IH _ _ Hc1 Hrun) as [Hc' Hlen].
    split; [done|]. rewrite accepted_cons, terminated_cons. lia.
Qed.

(** The call taken alone and the call as a task of the system agree: the
    frames of one socket, fed as events, leave the state that
    [receive_loop] computes. *)
Lemma sys_run_frames client_id ws (frames : list string) : ∀ s,
  tasks s !! ws = Some (client_id, Receiving) →
  ∃ s', sys_run json_loads exn_str s (map (λ data, Received ws (Ok data)) frames)
        = Some s' ∧
        tasks s' = tasks s ∧
        (Receiving, state s')
        = receive_loop json_loads exn_str client_id ws (map Ok frames) (state s).
Proof.
  induction frames as [|data frames IH]; intros s Hws; simpl.
  - by eexists.
  - rewrite Hws. destruct (loop_body_frame client_id ws data) as [m Hm].
    rewrite Hm. rewrite insert_id by done.
    edestruct (IH (mkSystem (tasks s) (sent_to ws m (state s)))) as (s' & Hrun & Ht & Hst);
      [done|].
    exists s'. by rewrite Hrun.
Qed.

(** A single call: while the socket is registered, the loop cannot end on
    the error of [list.remove]. *)
Lemma receive_loop_outcome client_id ws inbox : ∀ st,
  ws ∈ active_connections st →
  fst (receive_loop json_loads exn_str client_id ws inbox st)
  ≠ Closed (Raise ValueError_not_in_list).
Proof.
  induction inbox as [|received inbox IH]; intros st Hin; simpl; [done|].
  destruct received as [data|e].
  - destruct (loop_body_frame client_id ws data) as [m Hm].
    rewrite Hm. by apply IH.
  - unfold loop_body, bind, lift.
    destruct (finish_registered ws e st Hin) as (l & _ & ->). simpl.
    by destruct e.
Qed.

End Frames.

Section Claims.
Variable json_loads : string -> option json.
Variable exn_str : exn -> string.
Implicit Types (st : State) (ws : WebSocket) (md : gmap string json).

(** C1.  An envelope whose [type] is "action" and whose [actionType] is
    "ECHO_ACTION", with [eventId] the string [e], [timestamp] [t] and
    [details] [d], is answered by exactly one message, written to the
    same socket: an observation envelope of six fields with [eventId]
    [e + "_obs"], [timestamp] [t], [source] "WebSocketGateway", [type]
    "observation", [observationType] "ECHO_OBSERVATION" and [details]
    [d]. *)
Theorem echo_round_trip client_id ws data md (e : string) (t d : json) st :
  json_loads data = Some (JObj md) →
  md !! "type" = Some (JStr "action") →
  md !! "actionType" = Some (JStr "ECHO_ACTION") →
  md !! "eventId" = Some (JStr e) →
  md !! "timestamp" = Some t →
  md !! "details" = Some d →
  ∃ env : gmap string json,
    loop_body json_loads exn_str client_id ws (Ok data) st
    = (Ok tt, mkState (active_connections st) (sent st ++ [(ws, JObj env)])) ∧
    env !! "eventId" = Some (JStr (e +:+ "_obs")) ∧
    env !! "timestamp" = Some t ∧
    env !! "source" = Some (JStr "WebSocketGateway") ∧
    env !! "type" = Some (JStr "observation") ∧
    env !! "observationType" = Some (JStr "ECHO_OBSERVATION") ∧
    env !! "details" = Some d ∧
    size env = 6%nat.
Proof.
  intros Hl Hty Hat He Ht Hd.
  eexists. split.
  - rewrite (echo_reply json_loads exn_str client_id ws data md e st Hl Hty Hat)
      by (by rewrite He).
    rewrite Ht, Hd. reflexivity.
  - repeat split; reflexivity.
Qed.

(** C2, amended.  An echo action without an [eventId] is answered by an
    observation whose [eventId] is "_obs", the suffix after the empty
    default; an echo action without a [timestamp], whose [eventId] is
    absent or a string, is answered by an observation whose [timestamp]
    is the empty string. *)
Theorem absent_event_fields client_id ws data md st :
  json_loads data = Some (JObj md) →
  md !! "type" = Some (JStr "action") →
  md !! "actionType" = Some (JStr "ECHO_ACTION") →
  (md !! "eventId" = None →
   ∃ env : gmap string json,
     loop_body json_loads exn_str client_id ws (Ok data) st
     = (Ok tt, sent_to ws (JObj env) st) ∧
     env !! "type" = Some (JStr "observation") ∧
     env !! "eventId" = Some (JStr "_obs")) ∧
  (md !! "timestamp" = None →
   ∀ e0 : string, default (JStr EmptyString) (md !! "eventId") = JStr e0 →
   ∃ env : gmap string json,
     loop_body json_loads exn_str client_id ws (Ok data) st
     = (Ok tt, sent_to ws (JObj env) st) ∧
     env !! "type" = Some (JStr "observation") ∧
     env !! "timestamp" = Some (JStr EmptyString)).
Proof.
  intros Hl Hty Hat. split.
  - intros He. eexists. split.
    + apply (echo_reply json_loads exn_str client_id ws data md EmptyString st
               Hl Hty Hat).
      by rewrite He.
    + split; reflexivity.
  - intros Ht e0 He. eexists. split.
    + apply (echo_reply json_loads exn_str client_id ws data md e0 st
               Hl Hty Hat He).
    + rewrite Ht. split; reflexivity.
Qed.

(** C5.  [connect] appends the accepted socket.  In a state reached from
    the empty registry by a trace that accepts [n] connections and ends
    the loops of [m] of them, [m] is at most [n], the registry holds
    [n - m] sockets, and they are, once each, the sockets whose loop is
    still running.  Whatever [receive_text] raises in such a loop, the
    cleanup removes the socket from the registry. *)
Theorem registry_lifecycle trace s (n m : nat) :
  sys_run json_loads exn_str boot trace = Some s →
  accepted trace = n →
  terminated trace = m →
  (∀ ws st, connect (Ok tt) ws st
            = (Ok tt, mkState (active_connections st ++ [ws]) (sent st))) ∧
  (m ≤ n)%nat ∧
  length (registry s) = (n - m)%nat ∧
  consistent s ∧
  (∀ ws client_id e,
     tasks s !! ws = Some (client_id, Receiving) →
     ∃ s', sys_step json_loads exn_str s (Received ws (Raise e)) = Some s' ∧
           registry s ≡ₚ ws :: registry s' ∧
           ws ∉ registry s').
Proof.
  intros Hrun <- <-.
  destruct (sys_run_consistent json_loads exn_str trace boot s consistent_boot Hrun)
    as [Hc Hlen].
  change (length (registry boot)) with 0 in Hlen.
  split; [done|]. split; [lia|]. split; [lia|]. split; [done|].
  intros ws cid e Hws. destruct Hc as [Hnd Hreg].
  assert (ws ∈ registry s) as Hin by (apply Hreg; by eexists).
  unfold registry in *.
  destruct (finish_registered ws e _ Hin) as (l & Hr & Hf).
  destruct (list_remove_Some ws _ Hin) as (l' & Hr' & Hp).
  rewrite Hr in Hr'. injection Hr' as <-.
  destruct (list_remove_NoDup ws _ l Hnd Hr) as [_ Hmem].
  simpl. rewrite Hws. unfold loop_body, bind, lift. rewrite Hf.
  eexists. split; [done|]. simpl. split; [done|].
  intros Hl. apply Hmem in Hl as [_ ?]. done.
Qed.

(** C10, amended.  [disconnect] raises the error of [list.remove] for a
    socket that is not registered, and leaves the registry as it is.  Once
    [connect] has completed, the cleanup cannot raise that error: not in a
    call taken alone, and not in a call interleaved with others.  If
    [accept] raises, the endpoint raises the same exception before it
    enters the [try]: the cleanup is not run and the state is unchanged. *)
Theorem cleanup_removal_safety :
  (∀ ws st, ws ∉ active_connections st →
            disconnect ws st = (Raise ValueError_not_in_list, st)) ∧
  (∀ ws client_id inbox st,
     fst (websocket_endpoint json_loads exn_str ws client_id (Ok tt) inbox st)
     ≠ Closed (Raise ValueError_not_in_list)) ∧
  (∀ trace s ws client_id e,
     sys_run json_loads exn_str boot trace = Some s →
     tasks s !! ws = Some (client_id, Receiving) →
     ∃ st', finish ws e (state s)
            = (if is_Exception e then Ok tt else Raise e, st') ∧
            ws ∉ active_connections st') ∧
  (∀ ws client_id e inbox st,
     websocket_endpoint json_loads exn_str ws client_id (Raise e) inbox st
     = (Closed (Raise e), st)).
Proof.
  split; [|split; [|split]].
  - intros ws st Hn. apply list_remove_None in Hn.
    unfold disconnect. by rewrite Hn.
  - intros ws cid inbox st. unfold websocket_endpoint, connect, bind, lift.
    apply receive_loop_outcome. simpl. apply elem_of_app. right. left.
  - intros trace s ws cid e Hrun Hws.
    destruct (sys_run_consistent json_loads exn_str trace boot s
                consistent_boot Hrun) as [[Hnd Hreg] _].
    assert (ws ∈ registry s) as Hin by (apply Hreg; by eexists).
    destruct (finish_registered ws e _ Hin) as (l & Hr & Hf).
    eexists. split; [done|]. simpl.
    destruct (list_remove_NoDup ws _ l Hnd Hr) as [_ Hmem].
    intros Hl. apply Hmem in Hl as [_ ?]. done.
  - done.
Qed.

End Claims.

(** *** The claims on the examples of the specification *)

Lemma echo_round_trip_example :
  ∃ env : gmap string json,
    loop_body JsonText.loads JsonText.exn_str "unknown" 0 (Ok echo_frame) init
    = (Ok tt, mkState [] [(0%nat, JObj env)]) ∧
    env !! "eventId" = Some (JStr "e1_obs") ∧
    env !! "timestamp" = Some (JStr "t1") ∧
    env !! "source" = Some (JStr "WebSocketGateway") ∧
    env !! "type" = Some (JStr "observation") ∧
    env !! "observationType" = Some (JStr "ECHO_OBSERVATION") ∧
    env !! "details" = Some (dict [("x", JInt 1)]) ∧
    size env = 6%nat.
Proof.
  apply (echo_round_trip JsonText.loads JsonText.exn_str "unknown" 0%nat
           echo_frame echo_action "e1" (JStr "t1") (dict [("x", JInt 1)]) init);
    vm_compute; reflexivity.
Defined.

(** The echo action without [eventId]: the observation is named "_obs",
    not the empty string. *)
Lemma absent_event_id_is_not_empty :
  JsonText.loads bare_echo_frame = Some (JObj bare_echo_action) ∧
  bare_echo_action !! "eventId" = None ∧
  ∃ env : gmap string json,
    loop_body JsonText.loads JsonText.exn_str "unknown" 0 (Ok bare_echo_frame) init
    = (Ok tt, sent_to 0 (JObj env) init) ∧
    env !! "type" = Some (JStr "observation") ∧
    env !! "eventId" = Some (JStr "_obs") ∧
    env !! "eventId" ≠ Some (JStr EmptyString).
Proof.
  split; [vm_compute; reflexivity|]. split; [vm_compute; reflexivity|].
  eexists. split.
  - apply (echo_reply JsonText.loads JsonText.exn_str "unknown" 0%nat
             bare_echo_frame bare_echo_action EmptyString init);
      vm_compute; reflexivity.
  - split; [reflexivity|]. split; [reflexivity | discriminate].
Qed.

Lemma absent_event_fields_example :
  (∃ env : gmap string json,
     loop_body JsonText.loads JsonText.exn_str "unknown" 0 (Ok bare_echo_frame) init
     = (Ok tt, sent_to 0 (JObj env) init) ∧
     env !! "type" = Some (JStr "observation") ∧
     env !! "eventId" = Some (JStr "_obs")) ∧
  (∃ env : gmap string json,
     loop_body JsonText.loads JsonText.exn_str "unknown" 0 (Ok bare_echo_frame) init
     = (Ok tt, sent_to 0 (JObj env) init) ∧
     env !! "type" = Some (JStr "observation") ∧
     env !! "timestamp" = Some (JStr EmptyString)).
Proof.
  destruct (absent_event_fields JsonText.loads JsonText.exn_str "unknown" 0%nat
              bare_echo_frame bare_echo_action init) as [H1 H2];
    [vm_compute; reflexivity ..|].
  split; [apply H1; reflexivity | apply (H2 eq_refl EmptyString); reflexivity].
Defined.


(** The transcript of a malformed frame followed by the echo action. *)
Example malformed_then_echo :
  receive_loop JsonText.loads JsonText.exn_str "unknown" 0
    [Ok "not json"; Ok echo_frame] init
  = (Receiving,
     mkState []
       [(0%nat, invalid_json_error);
        (0%nat, dict [("eventId", JStr "e1_obs"); ("timestamp", JStr "t1");
                      ("source", JStr "WebSocketGateway");
                      ("type", JStr "observation");
                      ("observationType", JStr "ECHO_OBSERVATION");
                      ("details", dict [("x", JInt 1)])])]).
Proof. vm_compute. reflexivity. Qed.

Lemma registry_lifecycle_example :
  ∃ s, sys_run JsonText.loads JsonText.exn_str boot busy_trace = Some s ∧
       registry s = [1; 3]%nat ∧
       length (registry s) = (3 - 1)%nat.
Proof.
  assert (∃ s, sys_run JsonText.loads JsonText.exn_str boot busy_trace = Some s
               ∧ registry s = [1; 3]%nat) as (s & Hrun & Hreg).
  { eexists. split; vm_compute; reflexivity. }
  exists s. split; [done|]. split; [done|].
  destruct (registry_lifecycle JsonText.loads JsonText.exn_str busy_trace s 3 1 Hrun)
    as (_ & _ & Hlen & _); [vm_compute; reflexivity ..|].
  exact Hlen.
Defined.

(** A refused [accept]: the endpoint raises what [accept] raised, not the
    error of a removal, and the registry is untouched. *)
Lemma failed_accept_skips_cleanup :
  websocket_endpoint JsonText.loads JsonText.exn_str 0 "unknown"
    (Raise (OtherException "RuntimeError")) [] init
  = (Closed (Raise (OtherException "RuntimeError")), init) ∧
  fst (websocket_endpoint JsonText.loads JsonText.exn_str 0 "unknown"
         (Raise (OtherException "RuntimeError")) [] init)
  ≠ Closed (Raise ValueError_not_in_list).
Proof. split; [reflexivity | discriminate]. Qed.

Lemma cleanup_removal_safety_example :
  disconnect 0 init = (Raise ValueError_not_in_list, init) ∧
  websocket_endpoint JsonText.loads JsonText.exn_str 0 "unknown"
    (Raise (OtherException "RuntimeError")) [] init
  = (Closed (Raise (OtherException "RuntimeError")), init).
Proof.
  destruct (cleanup_removal_safety JsonText.loads JsonText.exn_str)
    as (H1 & _ & _ & H4).
  split; [apply H1; apply not_elem_of_nil | apply H4].
Defined.

End GatewayFacts.

(** ** The subscription endpoints *)

Module SubscriptionFacts.
Import Py Subscription Examples.

(** *** The division by 1024 *)

Section Division.
Local Open Scope Z_scope.

Lemma digits2_pos_spec p :
  2 ^ (Zpos (digits2_pos p) - 1) <= Zpos p < 2 ^ Zpos (digits2_pos p).
Proof.
  induction p as [p IH|p IH|]; simpl digits2_pos; [| |simpl; lia].
  all: rewrite Pos2Z.inj_succ;
    replace (Z.succ (Zpos (digits2_pos p)) - 1) with (Zpos (digits2_pos p)) by lia;
    rewrite Z.pow_succ_r by lia;
    assert (2 ^ Zpos (digits2_pos p) = 2 * 2 ^ (Zpos (digits2_pos p) - 1)) as E
      by (rewrite <- Z.pow_succ_r by lia; f_equal; lia);
    lia.
Qed.

Lemma digits2_pos_unique p n :
  2 ^ (n - 1) <= Zpos p < 2 ^ n → 0 < n → Zpos (digits2_pos p) = n.
Proof.
  intros Hn Hpos. pose proof (digits2_pos_spec p) as Hd.
  set (d := Zpos (digits2_pos p)) in *.
  assert (0 < d) by (subst d; lia).
  destruct (Z.lt_trichotomy d n) as [Hlt | [Heq | Hgt]]; [|done|].
  - assert (2 ^ d <= 2 ^ (n - 1)) by (apply Z.pow_le_mono_r; lia). lia.
  - assert (2 ^ n <= 2 ^ (d - 1)) by (apply Z.pow_le_mono_r; lia). lia.
Qed.

Lemma div_eucl_exact a b : 0 < b → Z.div_eucl (a * b) b = (a, 0).
Proof.
  intros Hb. pose proof (Z.div_mul a b ltac:(lia)) as Hq.
  pose proof (Z.mod_mul a b ltac:(lia)) as Hr.
  unfold Z.div, Z.modulo in *. destruct (Z.div_eucl (a * b) b). by subst.
Qed.

(** The quotient of an integer below [2^53] by [1024] is a float: the
    division is exact. *)
Lemma true_div_1024_pos (s : bool) (p : positive) :
  Zpos p < 2 ^ 53 →
  let d := Zpos (digits2_pos p) in
  (let '(q, e, l) := SFdiv_core_binary 53 1024 (Zpos p) 0 1024 0 in
   binary_round_aux 53 1024 s q e l)
  = S754_finite s (Z.to_pos (Zpos p * 2 ^ (53 - d))) (d - 63).
Proof.
  intros Hp d.
  pose proof (digits2_pos_spec p) as Hd. fold d in Hd.
  assert (1 <= d <= 53) as Hrange.
  { split; [subst d; lia|].
    destruct (Z.le_gt_cases d 53) as [?|Hgt]; [done|].
    assert (2 ^ 53 <= 2 ^ (d - 1)) by (apply Z.pow_le_mono_r; lia). lia. }
  set (m := Z.to_pos (Zpos p * 2 ^ (53 - d))).
  assert (0 < 2 ^ (53 - d)) as Hpow by (apply Z.pow_pos_nonneg; lia).
  assert (Zpos m = Zpos p * 2 ^ (53 - d)) as Hm by (subst m; rewrite Z2Pos.id; lia).
  assert (2 ^ 52 <= Zpos m < 2 ^ 53) as Hbounds.
  { rewrite Hm.
    replace (2 ^ 52) with (2 ^ (d - 1) * 2 ^ (53 - d))
      by (rewrite <- Z.pow_add_r by lia; f_equal; lia).
    replace (2 ^ 53) with (2 ^ d * 2 ^ (53 - d))
      by (rewrite <- Z.pow_add_r by lia; f_equal; lia).
    split; [apply Z.mul_le_mono_nonneg_r | apply Z.mul_lt_mono_pos_r]; lia. }
  assert (Zpos (digits2_pos m) = 53) as Hdm by (by apply digits2_pos_unique).
  unfold SFdiv_core_binary.
  change (Zdigits2 (Zpos p)) with d. change (Zdigits2 1024) with 11.
  replace (Z.min (fexp 53 1024 (d + 0 - (11 + 0))) (0 - 0)) with (d - 64)
    by (unfold fexp, emin; lia).
  replace (0 - 0 - (d - 64)) with (Zpos (Z.to_pos (64 - d)))
    by (rewrite Z2Pos.id; lia).
  rewrite Z.shiftl_mul_pow2 by lia. rewrite Z2Pos.id by lia.
  replace (Zpos p * 2 ^ (64 - d)) with (Zpos (xO m) * 1024).
  2:{ rewrite Pos2Z.inj_xO, Hm.
      replace (64 - d) with (53 - d + 11) by lia.
      rewrite Z.pow_add_r by lia. change (2 ^ 11) with 2048. lia. }
  rewrite div_eucl_exact by lia.
  change (new_location 1024 0) with loc_Exact.
  unfold binary_round_aux, shr_fexp.
  change (Zdigits2 (Zpos (xO m))) with (Zpos (Pos.succ (digits2_pos m))).
  rewrite Pos2Z.inj_succ, Hdm.
  replace (fexp 53 1024 (Z.succ 53 + (d - 64)) - (d - 64)) with 1
    by (unfold fexp, emin; lia).
  cbn [shr shr_record_of_loc SpecFloat.iter_pos shr_1 shr_m loc_of_shr_record
       round_nearest_even orb].
  change (Zdigits2 (Zpos m)) with (Zpos (digits2_pos m)). rewrite Hdm.
  replace (fexp 53 1024 (53 + (d - 64 + 1)) - (d - 64 + 1)) with 0
    by (unfold fexp, emin; lia).
  cbn [shr shr_record_of_loc shr_m].
  replace (d - 64 + 1 <=? 1024 - 53) with true by (symmetry; apply Z.leb_le; lia).
  f_equal. lia.
Qed.

Lemma Qpower_2 (k : Z) : 0 <= k → (2 ^ k == inject_Z (2 ^ k))%Q.
Proof. intros Hk. symmetry. exact (Zpower_Qpower 2 k Hk). Qed.

Lemma float_value_1024 (s : bool) (p m : positive) (d : Z) :
  1 <= d <= 53 → Zpos m = Zpos p * 2 ^ (53 - d) →
  (inject_Z (cond_Zopp s (Zpos m)) * 2 ^ (d - 63)
   == Qmake (cond_Zopp s (Zpos p)) 1024)%Q.
Proof.
  intros Hd Hm.
  assert (cond_Zopp s (Zpos m) = cond_Zopp s (Zpos p) * 2 ^ (53 - d)) as ->
    by (destruct s; simpl cond_Zopp; lia).
  rewrite inject_Z_mult, <- Qpower_2 by lia.
  rewrite <- Qmult_assoc, <- Qpower_plus by discriminate.
  replace (53 - d + (d - 63)) with (-10) by lia.
  unfold Qeq. simpl. lia.
Qed.

Lemma true_div_1024_signed (s : bool) (p : positive) :
  Zpos p < 2 ^ 53 →
  ∃ f q, true_div (cond_Zopp s (Zpos p)) 1024 = Ok f ∧
         float_value f = Some q ∧ (q == Qmake (cond_Zopp s (Zpos p)) 1024)%Q.
Proof.
  intros Hp. pose proof (true_div_1024_pos s p Hp) as H. cbv zeta in H.
  pose proof (digits2_pos_spec p) as Hd.
  set (d := Zpos (digits2_pos p)) in *.
  assert (1 <= d <= 53) as Hrange.
  { split; [subst d; lia|].
    destruct (Z.le_gt_cases d 53) as [?|Hgt]; [done|].
    assert (2 ^ 53 <= 2 ^ (d - 1)) by (apply Z.pow_le_mono_r; lia). lia. }
  assert (0 < 2 ^ (53 - d)) as Hpow by (apply Z.pow_pos_nonneg; lia).
  exists (S754_finite s (Z.to_pos (Zpos p * 2 ^ (53 - d))) (d - 63)).
  eexists. split; [|split; [reflexivity|]].
  - assert (true_div (cond_Zopp s (Zpos p)) 1024
            = let '(q, e, l) := SFdiv_core_binary 53 1024 (Zpos p) 0 1024 0 in
              match binary_round_aux 53 1024 s q e l with
              | S754_infinity _ => Raise OverflowError
              | f => Ok f
              end) as -> by (by destruct s).
    destruct (SFdiv_core_binary 53 1024 (Zpos p) 0 1024 0) as [[q e] l].
    by rewrite H.
  - apply (float_value_1024 s p); [done|]. rewrite Z2Pos.id; lia.
Qed.

(** Below [2^53] in magnitude, the division by 1024 returns, and its
    float is the quotient itself. *)
Lemma true_div_1024_exact (kb : Z) :
  Z.abs kb < 2 ^ 53 →
  ∃ f q, true_div kb 1024 = Ok f ∧ float_value f = Some q ∧ (q == Qmake kb 1024)%Q.
Proof.
  intros Hkb. destruct kb as [|p|p].
  - exists (S754_zero false), 0%Q. repeat split.
  - apply (true_div_1024_signed false p Hkb).
  - apply (true_div_1024_signed true p Hkb).
Qed.

(** The division raises nothing but [OverflowError] when the divisor is
    not zero. *)
Lemma true_div_raises (a b : Z) e :
  b ≠ 0 → true_div a b = Raise e → e = OverflowError.
Proof.
  intros Hb. unfold true_div.
  destruct a, b; try done;
    destruct (SFdiv_core_binary _ _ _ _ _ _) as [[q e'] l];
    destruct (binary_round_aux _ _ _ _ _ _); congruence.
Qed.

End Division.

Section Claims.
Variables AsyncSession CreateCheckoutSessionRequest CreatePortalSessionRequest
  SubscriptionSchema : Type.
Variable plan_value : SubscriptionPlan -> string.

Local Abbreviation info db u :=
  (get_subscription_info AsyncSession SubscriptionSchema plan_value db u).
Local Abbreviation usage_ r := (usage SubscriptionSchema r).

(** C3, amended.  Whenever [GET /subscription] returns, [projects] counts
    the projects; [max_projects] is 1 for FREE and -1 otherwise; the
    token counters are those of the user; [storage_used_mb] is the
    integer 0 without projects and otherwise the float that [/] makes of
    the sum of the sizes and 1024; [storage_limit_mb] is 10 for FREE and
    1024 otherwise; there is no subscription, and an upgrade is possible
    exactly for FREE.  Without projects, or with a sum below [2^53] in
    magnitude, the handler does return, and [storage_used_mb] is the sum
    over 1024 exactly.  The handler raises nothing but the
    [OverflowError] of that division. *)
Theorem usage_snapshot (db : AsyncSession) (u : User) :
  let kb := sum (map total_size_kb (projects u)) in
  (∀ r, info db u = Ok r →
     usage_ r !! "projects" = Some (PyInt (Z.of_nat (length (projects u)))) ∧
     (subscription_plan u = FREE → usage_ r !! "max_projects" = Some (PyInt 1)) ∧
     (subscription_plan u ≠ FREE → usage_ r !! "max_projects" = Some (PyInt (-1))) ∧
     usage_ r !! "tokens_used" = Some (PyInt (tokens_used u)) ∧
     usage_ r !! "tokens_limit" = Some (PyInt (tokens_limit u)) ∧
     (projects u = [] → usage_ r !! "storage_used_mb" = Some (PyInt 0)) ∧
     (projects u ≠ [] →
      ∃ f, true_div kb 1024 = Ok f ∧
           usage_ r !! "storage_used_mb" = Some (PyFloat f)) ∧
     (subscription_plan u = FREE → usage_ r !! "storage_limit_mb" = Some (PyInt 10)) ∧
     (subscription_plan u ≠ FREE → usage_ r !! "storage_limit_mb" = Some (PyInt 1024)) ∧
     has_subscription SubscriptionSchema r = false ∧
     subscription SubscriptionSchema r = None ∧
     (can_upgrade SubscriptionSchema r = true ↔ subscription_plan u = FREE) ∧
     size (usage_ r) = 6%nat) ∧
  (projects u = [] ∨ (Z.abs kb < 2 ^ 53)%Z →
   ∃ r n q, info db u = Ok r ∧
            usage_ r !! "storage_used_mb" = Some n ∧
            number_value n = Some q ∧ (q == Qmake kb 1024)%Q) ∧
  (∀ e, info db u = Raise e →
        e = OverflowError ∧ projects u ≠ [] ∧
        true_div kb 1024 = Raise OverflowError).
Proof.
  intros kb. split; [|split].
  - intros r. unfold get_subscription_info.
    destruct (projects u) as [|p ps] eqn:Hp.
    + intros [= <-]. simpl. repeat split; try reflexivity; try done.
      * intros ->. reflexivity.
      * intros Hne. change (?m !! "max_projects") with
          (Some (PyInt (if decide (subscription_plan u = FREE) then 1 else -1))).
        by rewrite decide_False.
      * intros ->. reflexivity.
      * intros Hne. change (?m !! "storage_limit_mb") with
          (Some (PyInt (if decide (subscription_plan u = FREE) then 10 else 1024))).
        by rewrite decide_False.
      * intros H. by apply bool_decide_eq_true in H.
      * intros H. by apply bool_decide_eq_true.
    + fold kb. destruct (true_div kb 1024) as [f|e] eqn:Hdiv; [|done].
      intros [= <-]. simpl. repeat split; try reflexivity; try done.
      * intros ->. reflexivity.
      * intros Hne. change (?m !! "max_projects") with
          (Some (PyInt (if decide (subscription_plan u = FREE) then 1 else -1))).
        by rewrite decide_False.
      * intros _. by exists f.
      * intros ->. reflexivity.
      * intros Hne. change (?m !! "storage_limit_mb") with
          (Some (PyInt (if decide (subscription_plan u = FREE) then 10 else 1024))).
        by rewrite decide_False.
      * intros H. by apply bool_decide_eq_true in H.
      * intros H. by apply bool_decide_eq_true.
  - intros Hsmall. unfold get_subscription_info.
    destruct (projects u) as [|p ps] eqn:Hp.
    + eexists _, (PyInt 0), _. split; [reflexivity|]. split; [reflexivity|].
      split; [reflexivity|]. subst kb. rewrite ?Hp. unfold Qeq. reflexivity.
    + destruct Hsmall as [|Hsmall]; [done|]. fold kb.
      destruct (true_div_1024_exact kb Hsmall) as (f & q & Hdiv & Hv & Hq).
      rewrite Hdiv. eexists _, (PyFloat f), q.
      split; [reflexivity|]. split; [reflexivity|]. done.
  - intros e. unfold get_subscription_info.
    destruct (projects u) as [|p ps] eqn:Hp; [done|]. fold kb.
    destruct (true_div kb 1024) as [f|e'] eqn:Hdiv; [done|].
    intros [= ->]. apply true_div_raises in Hdiv as ->; done.
Qed.


(** C8.  Whatever the session, the body and the user, [POST /checkout],
    [POST /portal], [POST /cancel] and [POST /reactivate] raise the HTTP
    error 503 with their fixed detail. *)
Theorem payment_endpoints_unavailable (db : AsyncSession)
    (checkout_request : CreateCheckoutSessionRequest)
    (portal_request : CreatePortalSessionRequest) (current_user : User) :
  create_checkout_session AsyncSession CreateCheckoutSessionRequest
    db checkout_request current_user
  = inl (mkHTTPException 503 "Payment processing is currently unavailable") ∧
  create_portal_session AsyncSession CreatePortalSessionRequest
    db portal_request current_user
  = inl (mkHTTPException 503 "Customer portal is currently unavailable") ∧
  cancel_subscription AsyncSession db current_user
  = inl (mkHTTPException 503 "Subscription management is currently unavailable") ∧
  reactivate_subscription AsyncSession db current_user
  = inl (mkHTTPException 503 "Subscription management is currently unavailable").
Proof. repeat split. Qed.

End Claims.

(** The usage example of the specification: 2048 KB in two projects. *)
Lemma usage_snapshot_example :
  ∃ r n q,
    get_subscription_info unit unit plan_value tt free_user = Ok r ∧
    usage unit r !! "storage_used_mb" = Some n ∧
    number_value n = Some q ∧ (q == 2)%Q ∧
    usage unit r !! "max_projects" = Some (PyInt 1) ∧
    usage unit r !! "storage_limit_mb" = Some (PyInt 10) ∧
    (can_upgrade unit r = true ↔ subscription_plan free_user = FREE).
Proof.
  destruct (usage_snapshot unit unit plan_value tt free_user)
    as (Hfields & Hexact & _).
  destruct Hexact as (r & n & q & Hr & Hn & Hv & Hq);
    [right; vm_compute; reflexivity|].
  destruct (Hfields r Hr)
    as (_ & Hmax & _ & _ & _ & _ & _ & Hlim & _ & _ & _ & Hup & _).
  exists r, n, q. split; [exact Hr|]. split; [exact Hn|]. split; [exact Hv|].
  split; [rewrite Hq; vm_compute; reflexivity|].
  split; [apply Hmax; reflexivity|]. split; [apply Hlim; reflexivity | exact Hup].
Defined.

(** A sum of [2^53 + 1] KB: the handler answers [2^43], which is not the
    sum over 1024; a sum of [2^1034] KB: the handler raises. *)
Lemma storage_is_a_rounded_float :
  (∃ r q,
     get_subscription_info unit unit plan_value tt large_user = Ok r ∧
     sum (map total_size_kb (projects large_user)) = (2 ^ 53 + 1)%Z ∧
     usage unit r !! "storage_used_mb"
     = Some (PyFloat (S754_finite false 4503599627370496 (-9))) ∧
     number_value (PyFloat (S754_finite false 4503599627370496 (-9))) = Some q ∧
     (q == inject_Z (2 ^ 43))%Q ∧
     ¬ (q == Qmake (2 ^ 53 + 1) 1024)%Q) ∧
  get_subscription_info unit unit plan_value tt huge_user = Raise OverflowError.
Proof.
  split; [|vm_compute; reflexivity].
  eexists _, _. split; [vm_compute; reflexivity|].
  split; [reflexivity|]. split; [vm_compute; reflexivity|].
  split; [reflexivity|]. split; [vm_compute; reflexivity|].
  intros H. vm_compute in H. discriminate.
Qed.

Example example_usage_flags :
  ∃ r r',
    get_subscription_info unit unit plan_value tt free_user = Ok r ∧
    get_subscription_info unit unit plan_value tt paid_user = Ok r' ∧
    can_upgrade unit r = true ∧ can_upgrade unit r' = false ∧
    usage unit r !! "storage_used_mb"
    = Some (PyFloat (S754_finite false 4503599627370496 (-51))) ∧
    usage unit r' !! "max_projects" = Some (PyInt (-1)) ∧
    usage unit r' !! "storage_limit_mb" = Some (PyInt 1024).
Proof. eexists _, _. repeat split; vm_compute; reflexivity. Qed.

End SubscriptionFacts.

(** ** The disabled payment client *)

Module StripeFacts.
Import Py Stripe.

(** C9.  The status mapping of the disabled client is constant: every
    status string is mapped to [CANCELED]. *)
Theorem map_subscription_status_constant (stripe_status : string) :
  map_subscription_status stripe_status = CANCELED.
Proof. reflexivity. Qed.

(** The operations that are switched off raise, the look-ups find
    nothing, the listings are empty. *)
Lemma disabled_operations customer_id price_id url mode name metadata flag kwargs :
  create_customer customer_id name metadata = disabled ∧
  update_customer customer_id kwargs = disabled ∧
  create_checkout_session customer_id price_id url url mode metadata flag = disabled ∧
  create_portal_session customer_id url = disabled ∧
  cancel_subscription customer_id flag = disabled ∧
  reactivate_subscription customer_id = disabled ∧
  construct_webhook_event url url = disabled ∧
  get_customer customer_id = JNull ∧
  get_subscription customer_id = JNull ∧
  get_payment_intent customer_id = JNull ∧
  list_prices flag name 10 = JArr [] ∧
  list_invoices customer_id 10 name = JArr [].
Proof. repeat split. Qed.

End StripeFacts.

(** ** The settings *)

Module ConfigFacts.
Import Py Config.

(** [split] cuts at the first separator and goes on with the rest. *)
Lemma split_cons sep (w rest : string) :
  (∀ c, c ∈ list_ascii_of_string w → c ≠ sep) →
  split sep (w +:+ String sep rest) = w :: split sep rest.
Proof.
  induction w as [|c w IH]; intros Hw.
  - change (split sep (String sep rest) = EmptyString :: split sep rest).
    simpl. by rewrite Ascii.eqb_refl.
  - change (split sep (String c (w +:+ String sep rest))
            = String c w :: split sep rest).
    simpl. destruct (Ascii.eqb c sep) eqn:E.
    + apply Ascii.eqb_eq in E. exfalso. apply (Hw c); [left | done].
    + rewrite IH; [done|]. intros c' Hc'. apply Hw. by right.
Qed.

(** A string without separator is one part. *)
Lemma split_single sep (w : string) :
  (∀ c, c ∈ list_ascii_of_string w → c ≠ sep) →
  split sep w = [w].
Proof.
  induction w as [|c w IH]; intros Hw; simpl; [done|].
  destruct (Ascii.eqb c sep) eqn:E.
  - apply Ascii.eqb_eq in E. exfalso. apply (Hw c); [left | done].
  - rewrite IH; [done|]. intros c' Hc'. apply Hw. by right.
Qed.

(** C7.  The string "http://a.com,http://b.com" resolves to the list of
    its two origins; no value resolves to the default origin; a value
    that is not [None], not a [str] and not a [list] raises [ValueError]. *)
Theorem cors_origins_parsing :
  assemble_cors_origins (JStr "http://a.com,http://b.com")
  = Ok (JArr [JStr "http://a.com"; JStr "http://b.com"]) ∧
  assemble_cors_origins JNull = Ok (JArr [JStr "http://localhost:3000"]) ∧
  (∀ v, is_None v = false → isinstance_str v = false →
        isinstance_list v = false →
        assemble_cors_origins v = Raise (ValueError v)).
Proof.
  split; [reflexivity|]. split; [reflexivity|].
  intros v Hn Hs Hl. by destruct v.
Qed.

Lemma cors_origins_parsing_example :
  assemble_cors_origins (JInt 5) = Raise (ValueError (JInt 5)) ∧
  assemble_cors_origins (dict [("origin", JStr "http://a.com")])
  = Raise (ValueError (dict [("origin", JStr "http://a.com")])).
Proof.
  destruct cors_origins_parsing as (_ & _ & H).
  split; apply H; reflexivity.
Defined.

(** The other shapes: a list, and a string that starts as a list, are
    returned as they are; parts are stripped of blanks. *)
Example cors_origins_other_shapes :
  assemble_cors_origins (JArr [JStr "http://a.com"]) = Ok (JArr [JStr "http://a.com"]) ∧
  assemble_cors_origins (JStr "[1, 2]") = Ok (JStr "[1, 2]") ∧
  assemble_cors_origins (JStr " http://a.com , http://b.com ")
  = Ok (JArr [JStr "http://a.com"; JStr "http://b.com"]).
Proof. repeat split. Qed.

End ConfigFacts.

(** ** The guest schema *)

Module AuthFacts.
Import Py Py.Notations Auth Examples.

Lemma drop_prefix_app lit s : drop_prefix lit (lit +:+ s) = Some s.
Proof. induction lit as [|c lit IH]; simpl; [done|]. by rewrite Ascii.eqb_refl. Qed.

Lemma re_match_times_class p (l : list ascii) rest :
  Forall (λ c, p c = true) l →
  re_match (Times (length l) (Class p)) (string_of_list_ascii l +:+ rest) = Some rest.
Proof.
  induction 1 as [|c l Hc Hl IH]; simpl; [done|].
  rewrite Hc. exact IH.
Qed.

Lemma alphabet_lower_or_digit : Forall (λ c, lower_or_digit c = true) alphabet.
Proof. unfold alphabet. simpl. repeat constructor. Qed.

Lemma string_app_nil_r (a : string) : a +:+ EmptyString = a.
Proof. induction a as [|x a IH]; [done|]. change (String x (a +:+ EmptyString) = String x a). by f_equal. Qed.

Lemma re_match_Cat r1 r2 s :
  re_match (Cat r1 r2) s
  = match re_match r1 s with Some s' => re_match r2 s' | None => None end.
Proof. reflexivity. Qed.

Lemma re_match_Str lit s : re_match (Str lit) (lit +:+ s) = Some s.
Proof. apply drop_prefix_app. Qed.

Lemma username_matches (l : list ascii) :
  length l = 6%nat → Forall (λ c, lower_or_digit c = true) l →
  fullmatch guest_username_re ("guest_" +:+ string_of_list_ascii l) = true.
Proof.
  intros Hlen Hl. unfold fullmatch, guest_username_re.
  rewrite re_match_Cat, re_match_Str.
  rewrite <- Hlen, <- (string_app_nil_r (string_of_list_ascii l)).
  by rewrite (re_match_times_class _ l EmptyString Hl).
Qed.

Lemma email_matches (l : list ascii) :
  length l = 8%nat → Forall (λ c, lower_or_digit c = true) l →
  fullmatch guest_email_re
    ("guest_" +:+ string_of_list_ascii l +:+ "@guest.devinclone.app") = true.
Proof.
  intros Hlen Hl. unfold fullmatch, guest_email_re.
  rewrite re_match_Cat, re_match_Str, re_match_Cat.
  rewrite <- Hlen, (re_match_times_class _ l _ Hl).
  reflexivity.
Qed.

Section Random.
Variable Gen : Type.
Variable genrand_res53 : Gen -> Z * Gen.

(** [random()] lies in [[0, 1)]. *)
Lemma random_unit_interval g :
  ∃ a g', random Gen genrand_res53 g = (Ok (Qmake a (2 ^ 53)), g') ∧
          (0 ≤ a < 2 ^ 53)%Z.
Proof.
  unfold random. destruct (genrand_res53 g) as [bits g'].
  eexists _, _. split; [reflexivity|]. apply Z.mod_pos_bound. lia.
Qed.

(** [floor(random() * n)] is an index of a population of [n] elements. *)
Lemma choice_index (a : Z) (n : nat) :
  (0 ≤ a < 2 ^ 53)%Z → (0 < n)%nat →
  (Z.to_nat (Qfloor (Qmake a (2 ^ 53) * inject_Z (Z.of_nat n))) < n)%nat.
Proof.
  intros Ha Hn. unfold Qfloor, Qmult, inject_Z. simpl Qnum. simpl Qden.
  rewrite Pos.mul_1_r.
  assert (0 ≤ a * Z.of_nat n / Z.pos (2 ^ 53) < Z.of_nat n)%Z as [H0 H1].
  { split.
    - apply Z.div_pos; lia.
    - apply Z.div_lt_upper_bound; [lia|]. 
      change (Z.pos (2^53)) with (2^53)%Z. nia. }
  lia.
Qed.

(** [random.choices] never raises on a population that is not empty. *)
Lemma choices_total (population : list ascii) (k : nat) : ∀ g,
  population ≠ [] →
  ∃ l g', choices Gen genrand_res53 population k g = (Ok l, g') ∧
          length l = k ∧ Forall (λ c, c ∈ population) l.
Proof.
  induction k as [|k IH]; intros g Hne; cbn [choices].
  - eexists _, _. split; [reflexivity|]. split; [done | constructor].
  - unfold bind at 1. destruct (random_unit_interval g) as (a & g1 & -> & Ha).
    assert (0 < length population)%nat as Hlen by (destruct population; [done | simpl; lia]).
    pose proof (choice_index a _ Ha Hlen) as Hi.
    destruct (lookup_lt_is_Some_2 population _ Hi) as [c Hc].
    rewrite Hc. unfold bind at 1, ret at 1.
    destruct (IH g1 Hne) as (l & g' & Hl & Hk & Hall).
    unfold bind, ret. rewrite Hl.
    eexists _, _. split; [reflexivity|]. split; [simpl; lia|].
    constructor; [|done]. by eapply list_elem_of_lookup_2.
Qed.


(** Drawing from the alphabet gives [k] characters of [[a-z0-9]]. *)
Lemma alphabet_choices k g :
  ∃ l g', choices Gen genrand_res53 alphabet k g = (Ok l, g') ∧
          length l = k ∧ Forall (λ c, lower_or_digit c = true) l.
Proof.
  destruct (choices_total alphabet k g) as (l & g' & Hl & Hk & Hall); [done|].
  exists l, g'. split; [done|]. split; [done|].
  eapply Forall_impl; [exact Hall|]. intros c Hc. simpl in Hc.
  pose proof alphabet_lower_or_digit as Ha.
  rewrite Forall_forall in Ha. by apply Ha.
Qed.

(** C4.  The root validator always returns.  A request without a
    username (absent, or any value that [not] takes for false) gets a
    username that matches [^guest_[a-z0-9]{6}$]; without an email, an
    email that matches [^guest_[a-z0-9]{8}@guest\.devinclone\.app$];
    [is_guest] is set to [True] whatever the request said, so every
    record that validation yields is a guest, and a request with neither
    username nor email does yield a record. *)
Theorem guest_credentials (values : gmap string json) (g : Gen) :
  ∃ values' g',
    generate_guest_credentials Gen genrand_res53 values g = (Ok values', g') ∧
    create Gen genrand_res53 values g = (Ok (validate_fields values'), g') ∧
    (truthy (default JNull (values !! "username")) = false →
     ∃ u, values' !! "username" = Some (JStr u) ∧
          fullmatch guest_username_re u = true) ∧
    (truthy (default JNull (values !! "email")) = false →
     ∃ m, values' !! "email" = Some (JStr m) ∧
          fullmatch guest_email_re m = true) ∧
    values' !! "is_guest" = Some (JBool true) ∧
    (∀ r, validate_fields values' = Some r → is_guest r = true) ∧
    (truthy (default JNull (values !! "username")) = false →
     truthy (default JNull (values !! "email")) = false →
     ∃ r, validate_fields values' = Some r ∧
          fullmatch guest_username_re (username r) = true ∧
          fullmatch guest_email_re (email r) = true ∧
          is_guest r = true).
Proof.
  assert (∃ values' g',
    generate_guest_credentials Gen genrand_res53 values g = (Ok values', g') ∧
    (truthy (default JNull (values !! "username")) = false →
     ∃ u, values' !! "username" = Some (JStr u) ∧
          fullmatch guest_username_re u = true) ∧
    (truthy (default JNull (values !! "email")) = false →
     ∃ m, values' !! "email" = Some (JStr m) ∧
          fullmatch guest_email_re m = true) ∧
    values' !! "is_guest" = Some (JBool true))
    as (values' & g' & Hgen & Hu & He & Hg).
  { unfold generate_guest_credentials.
    pose proof (alphabet_choices 6) as H6.
    pose proof (alphabet_choices 8) as H8.
    set (c6 := choices _ _ alphabet 6) in *.
    set (c8 := choices _ _ alphabet 8) in *.
    clearbody c6 c8. unfold bind, ret.
    destruct (truthy (default JNull (values !! "username"))) eqn:Tu;
      cbn [negb].
    - destruct (truthy (default JNull (values !! "email"))) eqn:Te;
        cbn [negb].
      + eexists _, _. split; [reflexivity|].
        split; [done|]. split; [done|]. by rewrite lookup_insert_eq.
      + destruct (H8 g) as (l2 & g2 & -> & Hk2 & Ha2).
        eexists _, _. split; [reflexivity|].
        split; [done|]. split; [|by rewrite lookup_insert_eq].
        intros _. rewrite lookup_insert_ne, lookup_insert_eq by done.
        eexists. split; [done|]. by apply email_matches.
    - destruct (H6 g) as (l1 & g1 & -> & Hk1 & Ha1).
      rewrite (lookup_insert_ne _ "username" "email") by done.
      destruct (truthy (default JNull (values !! "email"))) eqn:Te;
        cbn [negb].
      + eexists _, _. split; [reflexivity|].
        split; [|split; [done|by rewrite lookup_insert_eq]].
        intros _. rewrite lookup_insert_ne, lookup_insert_eq by done.
        eexists. split; [done|]. by apply username_matches.
      + destruct (H8 g1) as (l2 & g2 & -> & Hk2 & Ha2).
        eexists _, _. split; [reflexivity|].
        split; [|split; [|by rewrite lookup_insert_eq]]; intros _.
        * rewrite !lookup_insert_ne, lookup_insert_eq by done.
          eexists. split; [done|]. by apply username_matches.
        * rewrite lookup_insert_ne, lookup_insert_eq by done.
          eexists. split; [done|]. by apply email_matches. }
  exists values', g'. split; [done|]. split.
  { unfold create, bind. rewrite Hgen. reflexivity. }
  split; [done|]. split; [done|]. split; [done|]. split.
  - intros r Hr. unfold validate_fields in Hr. rewrite Hg in Hr.
    repeat case_match; simplify_eq; done.
  - intros Tu Te. destruct (Hu Tu) as (u & Hu1 & Hu2).
    destruct (He Te) as (m & Hm1 & Hm2).
    exists (mkGuestUserCreate u m true). unfold validate_fields.
    rewrite Hu1, Hm1, Hg. done.
Qed.

End Random.

Lemma guest_credentials_example :
  ∃ r, fst (create Z lcg not_a_guest 42%Z) = Ok (Some r) ∧
       fullmatch guest_username_re (username r) = true ∧
       fullmatch guest_email_re (email r) = true ∧
       is_guest r = true.
Proof.
  destruct (guest_credentials Z lcg not_a_guest 42%Z)
    as (values' & g' & _ & Hc & _ & _ & _ & _ & Hr).
  destruct Hr as (r & Hv & Hu & He & Hg); [vm_compute; reflexivity ..|].
  exists r. rewrite Hc. cbn [fst]. rewrite Hv.
  split; [reflexivity|]. split; [exact Hu|]. split; [exact He | exact Hg].
Defined.

(** The record drawn from the seed 42. *)
Example guest_from_seed_42 :
  fst (create Z lcg not_a_guest 42%Z)
  = Ok (Some (mkGuestUserCreate "guest_uiowya"
                "guest_aframt7l@guest.devinclone.app" true)).
Proof. vm_compute. reflexivity. Qed.

(** A username of the caller is kept; the flag is forced all the same. *)
Example guest_with_username :
  fst (create Z lcg
         (<["username" := JStr "alice"]> not_a_guest) 42%Z)
  = Ok (Some (mkGuestUserCreate "alice"
                "guest_uiowyaaf@guest.devinclone.app" true)).
Proof. vm_compute. reflexivity. Qed.

End AuthFacts.

(** ** The event gateway: the replies, the sessions, the broadcast *)

Module GatewayMore.
Import Py Py.Notations Gateway ListRemoveFacts Examples GatewayFacts.

(** Closes the branch of a frame where the operation on [v] raises [e],
    whatever the client, the socket and the state. *)
Ltac raised_everywhere v e :=
  exists (inr e); split;
  [ destruct v; simpl in *; simplify_eq; done
  | intros ? ? ?; reflexivity ].

Section Replies.
Variable json_loads : string -> option json.
Variable exn_str : exn -> string.
Implicit Types (st : State) (ws : WebSocket) (md : gmap string json) (s : System).

Local Abbreviation reply := (reply_of json_loads exn_str).

(** What the body of the inner [try] does depends on the frame alone. *)
Lemma process_message_outcome data :
  ∃ outcome : json + exn,
    match outcome with inl _ => True | inr e => is_Exception e = true end ∧
    ∀ client_id ws st,
      process_message json_loads client_id ws data st
      = match outcome with
        | inl message => (Ok tt, sent_to ws message st)
        | inr e => (Raise e, st)
        end.
Proof.
  unfold process_message, bind, lift, ret, raise, send_personal_message.
  destruct (json_loads data) as [v|]; [|by exists (inr JSONDecodeError)].
  destruct (is_action_payload v) as [[]|e] eqn:Hact; simpl.
  - unfold add_event, bind, lift, ret.
    destruct (get v "actionType" JNull) as [at_|e] eqn:Hat;
      [|raised_everywhere v e].
    destruct (eq_str at_ "ECHO_ACTION"); [|by eexists (inl _)].
    destruct (get v "details" JNull) as [d|e] eqn:Hd; [|raised_everywhere v e].
    simpl.
    destruct (get v "eventId" (JStr EmptyString)) as [eid|e] eqn:He;
      simpl; [|raised_everywhere v e].
    destruct (add_str eid "_obs") as [eid'|e] eqn:He';
      [|raised_everywhere eid e].
    destruct (get v "timestamp" (JStr EmptyString)) as [ts|e] eqn:Hts;
      simpl; [|raised_everywhere v e].
    by eexists (inl _).
  - by eexists (inl _).
  - exists (inr e). split; [|done].
    unfold is_action_payload in Hact.
    destruct v; simpl in Hact; try (by inversion Hact).
    all: repeat (case_match; simpl in *; simplify_eq); done.
Qed.

(** [handle_frame] writes [reply data] to the socket, and nothing else. *)
Lemma handle_frame_reply_of client_id ws data st :
  handle_frame json_loads exn_str client_id ws data st
  = (Ok tt, sent_to ws (reply data) st).
Proof.
  assert (∃ m, ∀ client_id ws st,
             handle_frame json_loads exn_str client_id ws data st
             = (Ok tt, sent_to ws m st)) as [m Hm].
  { unfold handle_frame, try_except.
    destruct (process_message_outcome data) as ([m|e] & He & Hp).
    - exists m. intros. by rewrite Hp.
    - destruct e; simpl in He; try done;
        eexists; intros; rewrite Hp; reflexivity. }
  unfold reply_of. rewrite !Hm. reflexivity.
Qed.

Lemma reply_of_intro client_id ws data st message :
  loop_body json_loads exn_str client_id ws (Ok data) st
  = (Ok tt, sent_to ws message st) →
  reply data = message.
Proof.
  unfold loop_body, bind, lift. rewrite handle_frame_reply_of.
  unfold sent_to. intros H. injection H as H.
  apply app_inv_head in H. by injection H.
Qed.

Lemma receive_loop_frames client_id ws (frames : list string) inbox st :
  receive_loop json_loads exn_str client_id ws (map Ok frames ++ inbox) st
  = receive_loop json_loads exn_str client_id ws inbox
      (mkState (active_connections st)
         (sent st ++ map (λ data, (ws, reply data)) frames)).
Proof.
  revert st. induction frames as [|data frames IH]; intros st; simpl.
  - rewrite app_nil_r. by destruct st.
  - unfold loop_body, bind, lift. rewrite handle_frame_reply_of.
    rewrite IH. simpl. by rewrite <- app_assoc.
Qed.

(** *** The reply to each kind of frame *)

Lemma invalid_json_reply data :
  json_loads data = None → reply data = invalid_json.
Proof.
  intros Hl. apply (reply_of_intro EmptyString 0%nat data init).
  unfold loop_body, handle_frame, try_except, process_message,
    bind, lift, raise. simpl. by rewrite Hl.
Qed.

Lemma non_object_frame client_id ws data (v : json) st :
  json_loads data = Some v →
  (∀ md, v ≠ JObj md) →
  loop_body json_loads exn_str client_id ws (Ok data) st =
    (Ok tt,
     sent_to ws
       (match contains "type" v with
        | Raise e => server_error exn_str e
        | Ok true => server_error exn_str (TypeError_bad_index v)
        | Ok false => invalid_format
        end) st).
Proof.
  intros Hl Hv.
  unfold loop_body, handle_frame, try_except, process_message,
    bind, lift, ret, raise. simpl.
  rewrite Hl. unfold is_action_payload.
  destruct v as [| | | | text | l | md]; simpl; try done.
  - by destruct (is_substring "type" text).
  - by destruct (existsb _ l).
  - by destruct (Hv md).
Qed.

Lemma eq_str_true (v : json) (text : string) :
  eq_str v text = true → v = JStr text.
Proof. destruct v; simpl; try done. by intros ->%String.eqb_eq. Qed.

Lemma eq_str_false (v : json) (text : string) :
  eq_str v text = false ↔ v ≠ JStr text.
Proof.
  split.
  - intros H ->. simpl in H. by rewrite String.eqb_refl in H.
  - intros H. destruct (eq_str v text) eqn:E; [|done]. by apply eq_str_true in E.
Qed.

(** Every frame falls in one of the six cases, and is answered as the
    case says. *)
Lemma reply_classification data :
  reply_case json_loads exn_str data (reply data).
Proof.
  pose (intro := reply_of_intro EmptyString 0%nat data init).
  destruct (json_loads data) as [v|] eqn:Hl.
  2:{ rewrite (invalid_json_reply data Hl). by constructor. }
  destruct v as [| | | | | | md].
  1-6: erewrite intro; [|by apply non_object_frame];
       by apply reply_non_object.
  destruct (md !! "type") as [ty|] eqn:Hmty.
  2:{ erewrite intro
        by (apply (not_an_action _ _ _ _ _ md); [done | left; congruence]).
      apply (reply_not_action _ _ _ md); [done | left; congruence]. }
  destruct (eq_str ty "action") eqn:Eq.
  2:{ apply eq_str_false in Eq.
      erewrite intro
        by (apply (not_an_action _ _ _ _ _ md); [done | left; congruence]).
      apply (reply_not_action _ _ _ md); [done | left; congruence]. }
  apply eq_str_true in Eq as ->.
  destruct (md !! "actionType") as [a|] eqn:Hat.
  2:{ erewrite intro by (apply (not_an_action _ _ _ _ _ md); [done | by right]).
      apply (reply_not_action _ _ _ md); [done | by right]. }
  destruct (eq_str a "ECHO_ACTION") eqn:Ea.
  2:{ erewrite intro by by apply (unknown_action_acknowledged _ _ _ _ _ md a).
      apply (reply_acknowledgment _ _ _ md a); try done. by apply eq_str_false. }
  apply eq_str_true in Ea as ->.
  destruct (md !! "eventId") as [v|] eqn:Hid.
  2:{ erewrite intro
        by (apply (echo_reply _ _ _ _ _ md EmptyString); try done; by rewrite Hid).
      apply (reply_observation _ _ _ md EmptyString); try done. by rewrite Hid. }
  destruct v as [| | | | e | |].
  5:{ erewrite intro
        by (apply (echo_reply _ _ _ _ _ md e); try done; by rewrite Hid).
      apply (reply_observation _ _ _ md e); try done. by rewrite Hid. }
  all: erewrite intro by (eapply (non_string_event_id _ _ _ _ _ md); done);
       by eapply (reply_bad_event_id _ _ _ md).
Qed.

(** X1.  Whatever the frames that arrive on a socket, each one is answered
    by exactly one message, written to that socket, in the order of
    arrival; the answer depends on the text of the frame alone (not on the
    client, the socket, or what came before); the loop is still running
    afterwards and the registry is as it was. *)
Theorem frames_are_answered_in_turn client_id ws (frames : list string) st :
  receive_loop json_loads exn_str client_id ws (map Ok frames) st
  = (Receiving,
     mkState (active_connections st)
       (sent st ++ map (λ data, (ws, reply data)) frames)).
Proof.
  rewrite <- (app_nil_r (map Ok frames)). by rewrite receive_loop_frames.
Qed.

(** X2.  The reply to a frame is an observation envelope exactly when the
    frame decodes to an object whose [type] is "action", whose
    [actionType] is "ECHO_ACTION" and whose [eventId] is absent or a
    string. *)
Theorem observation_only_for_echo data :
  (∃ env : gmap string json,
     reply data = JObj env ∧ env !! "type" = Some (JStr "observation"))
  ↔
  (∃ md : gmap string json,
     json_loads data = Some (JObj md) ∧
     md !! "type" = Some (JStr "action") ∧
     md !! "actionType" = Some (JStr "ECHO_ACTION") ∧
     (md !! "eventId" = None ∨ ∃ e, md !! "eventId" = Some (JStr e))).
Proof.
  split.
  - intros (env & Hr & Hty).
    pose proof (reply_classification data) as Hc. rewrite Hr in Hc.
    inversion Hc as [? Heq| v ? ? Heq| md ? ? Heq| md a ? ? ? ? Heq
                    | md v ? ? ? ? ? Heq| md e0 Hl Hmty Hat He0 Heq].
    6:{ exists md. repeat (split; [done|]).
        destruct (md !! "eventId") as [v|]; [|by left].
        simpl in He0. subst v. right. by eexists. }
    all: exfalso;
      unfold server_error, invalid_json, invalid_format, acknowledgment, dict in *;
      repeat case_match; simplify_eq; done.
  - intros (md & Hl & Hty & Hat & Hid).
    assert (∃ e0, default (JStr EmptyString) (md !! "eventId") = JStr e0)
      as [e0 He0].
    { destruct Hid as [-> | [e ->]]; by eexists. }
    eexists. split.
    + apply (reply_of_intro EmptyString 0%nat data init).
      by apply (echo_reply _ _ _ _ _ md e0).
    + reflexivity.
Qed.

(** X3.  The reply to a frame is the acknowledgment
    [{"status": "action_received_but_no_direct_response"}] exactly when the
    frame decodes to an object whose [type] is "action" and that has an
    [actionType] other than the string "ECHO_ACTION". *)
Theorem acknowledgment_only_for_other_actions data :
  reply data = acknowledgment
  ↔
  (∃ (md : gmap string json) (a : json),
     json_loads data = Some (JObj md) ∧
     md !! "type" = Some (JStr "action") ∧
     md !! "actionType" = Some a ∧
     a ≠ JStr "ECHO_ACTION").
Proof.
  split.
  - intros Hr.
    pose proof (reply_classification data) as Hc. rewrite Hr in Hc.
    inversion Hc as [? Heq| v ? ? Heq| md ? ? Heq| md a Hl Hmty Hat Ha Heq
                    | md v ? ? ? ? ? Heq| md e0 ? ? ? ? Heq].
    all: try (exists md, a; done).
    all: exfalso;
      unfold server_error, invalid_json, invalid_format, acknowledgment,
        observation, dict in *;
      repeat case_match; simplify_eq.
  - intros (md & a & Hl & Hty & Hat & Ha).
    apply (reply_of_intro EmptyString 0%nat data init).
    apply (unknown_action_acknowledged _ _ _ _ _ md a); try done.
    by apply eq_str_false.
Qed.

(** X4.  An echo action whose [eventId] is present and not a string is
    not echoed: the concatenation with "_obs" raises, and the client gets
    the server-error envelope built from that exception. *)
Theorem echo_with_bad_event_id client_id ws data md (v : json) st :
  json_loads data = Some (JObj md) →
  md !! "type" = Some (JStr "action") →
  md !! "actionType" = Some (JStr "ECHO_ACTION") →
  md !! "eventId" = Some v →
  (∀ e, v ≠ JStr e) →
  loop_body json_loads exn_str client_id ws (Ok data) st
  = (Ok tt, sent_to ws (server_error exn_str (TypeError_concat v)) st).
Proof. apply non_string_event_id. Qed.


(** *** A whole session *)

Lemma list_remove_last (ws : WebSocket) (l : list WebSocket) :
  ws ∉ l → list_remove ws (l ++ [ws]) = Some l.
Proof.
  induction l as [|y l IH]; simpl; intros Hn.
  - by rewrite decide_True.
  - apply not_elem_of_cons in Hn as [Hne Hn].
    rewrite decide_False by done. by rewrite IH.
Qed.

(** X6.  A session on a socket that is not registered yet: [accept]
    succeeds, frames arrive, then [receive_text] raises [e].  The
    endpoint answers each frame, leaves the registry exactly as it found
    it, and returns normally if [e] is an [Exception] (a disconnect
    included); otherwise [e] propagates.  What the client sends after the
    failure is never read. *)
Theorem session_round_trip client_id ws (frames : list string) e rest st :
  ws ∉ active_connections st →
  websocket_endpoint json_loads exn_str ws client_id (Ok tt)
    (map Ok frames ++ Raise e :: rest) st
  = (Closed (if is_Exception e then Ok tt else Raise e),
     mkState (active_connections st)
       (sent st ++ map (λ data, (ws, reply data)) frames)).
Proof.
  intros Hn. unfold websocket_endpoint, connect, bind, lift.
  rewrite receive_loop_frames. cbn [receive_loop].
  unfold loop_body, finish, disconnect, bind, lift.
  cbn [active_connections sent].
  rewrite list_remove_last by done. by destruct e.
Qed.

(** *** What the system writes *)

Lemma finish_sent ws e st : sent (snd (finish ws e st)) = sent st.
Proof.
  unfold finish, bind, disconnect.
  destruct (list_remove ws (active_connections st)); [|done].
  by destruct e.
Qed.

Lemma sys_step_sent s ev s' :
  sys_step json_loads exn_str s ev = Some s' →
  sent (state s')
  = (sent (state s)
     ++ map (λ '(ws, data), (ws, reply data)) (frames_of [ev]))%list.
Proof.
  destruct ev as [ws cid accept | ws received]; simpl.
  - destruct (tasks s !! ws); [done|].
    destruct accept as [[]|e]; simpl; intros [= <-]; simpl; by rewrite app_nil_r.
  - destruct (tasks s !! ws) as [[cid [|]]|]; try done.
    destruct received as [data|e]; simpl.
    + unfold loop_body, bind, lift. rewrite handle_frame_reply_of.
      by intros [= <-].
    + unfold loop_body, bind, lift.
      pose proof (finish_sent ws e (state s)) as Hs.
      destruct (finish ws e (state s)) as [o st']. intros [= <-]. simpl in *.
      by rewrite app_nil_r.
Qed.

Lemma frames_of_cons ev trace :
  frames_of (ev :: trace) = (frames_of [ev] ++ frames_of trace)%list.
Proof. unfold frames_of. simpl. by destruct ev as [| ? []]. Qed.

Lemma sys_run_sent trace : ∀ s s',
  sys_run json_loads exn_str s trace = Some s' →
  sent (state s')
  = (sent (state s)
     ++ map (λ '(ws, data), (ws, reply data)) (frames_of trace))%list.
Proof.
  induction trace as [|ev trace IH]; intros s s' Hrun; simpl in Hrun.
  - injection Hrun as <-. by rewrite app_nil_r.
  - destruct (sys_step json_loads exn_str s ev) as [s1|] eqn:Hstep; [|done].
    rewrite (IH _ _ Hrun), (sys_step_sent _ _ _ Hstep).
    rewrite (frames_of_cons ev trace), map_app. by rewrite <- app_assoc.
Qed.

(** X7.  However the calls for several sockets interleave, what the
    gateway has written is, in order of arrival, one reply per frame
    received, each written to the socket the frame arrived on; opening
    and closing connections writes nothing, and no socket gets a reply
    to the frame of another. *)
Theorem replies_go_to_the_sender trace s :
  sys_run json_loads exn_str boot trace = Some s →
  sent (state s) = map (λ '(ws, data), (ws, reply data)) (frames_of trace).
Proof. intros Hrun. by rewrite (sys_run_sent _ _ _ Hrun). Qed.

(** *** The order of the registry *)

Lemma filter_all {A} (P : A → Prop) `{!∀ x, Decision (P x)} (l : list A) :
  (∀ x, x ∈ l → P x) → filter P l = l.
Proof.
  induction l as [|y l IH]; intros Hall; [done|].
  rewrite filter_cons_True by (apply Hall; left).
  rewrite IH; [done|]. intros x Hx. apply Hall. by right.
Qed.

Lemma list_remove_filter (ws : WebSocket) (l l' : list WebSocket) :
  NoDup l → list_remove ws l = Some l' → l' = filter (λ x, x ≠ ws) l.
Proof.
  revert l'. induction l as [|y l IH]; intros l' Hnd; simpl; [done|].
  apply NoDup_cons in Hnd as [Hy Hnd].
  destruct (decide (ws = y)) as [->|Hne].
  - intros [= <-]. rewrite filter_cons_False by (intros ?; done).
    symmetry. apply filter_all. intros x Hx ->. done.
  - destruct (list_remove ws l) as [r|] eqn:Hr; [|done].
    intros [= <-]. rewrite filter_cons_True by done.
    by rewrite <- (IH r).
Qed.

Lemma opened_cons ev trace :
  opened (ev :: trace) = (opened [ev] ++ opened trace)%list.
Proof. unfold opened. simpl. by destruct ev as [? ? []|]. Qed.

Lemma closed_cons ev trace :
  closed (ev :: trace) = (closed [ev] ++ closed trace)%list.
Proof. unfold closed. simpl. by destruct ev as [| ? []]. Qed.

(** A socket that has a task keeps one. *)
Lemma sys_step_tasks s ev s1 ws :
  sys_step json_loads exn_str s ev = Some s1 →
  is_Some (tasks s !! ws) → is_Some (tasks s1 !! ws).
Proof.
  intros Hstep Hws.
  destruct ev as [ws' cid accept | ws' received]; simpl in Hstep;
    repeat case_match; simplify_eq; simpl;
    (destruct (decide (ws' = ws)) as [->|Hne];
     [by rewrite lookup_insert_eq | by rewrite lookup_insert_ne]).
Qed.

(** A socket that has a task is not opened again. *)
Lemma opened_fresh trace : ∀ s s' ws,
  sys_run json_loads exn_str s trace = Some s' →
  is_Some (tasks s !! ws) → ws ∉ opened trace.
Proof.
  induction trace as [|ev trace IH]; intros s s' ws Hrun Hws; simpl in Hrun.
  - apply not_elem_of_nil.
  - destruct (sys_step json_loads exn_str s ev) as [s1|] eqn:Hstep; [|done].
    rewrite opened_cons. apply not_elem_of_app. split.
    + destruct ev as [ws' cid [[]|]|]; unfold opened; simpl;
        try apply not_elem_of_nil.
      simpl in Hstep. destruct (tasks s !! ws') eqn:E; [done|].
      intros ->%list_elem_of_singleton. rewrite E in Hws. by destruct Hws.
    + eapply IH; [done|]. by eapply sys_step_tasks.
Qed.

Lemma sys_step_registry s ev s1 :
  consistent s →
  sys_step json_loads exn_str s ev = Some s1 →
  registry s1
  = filter (λ ws, ws ∉ closed [ev]) (registry s ++ opened [ev])%list
  ∧ ∀ ws, ws ∈ closed [ev] → is_Some (tasks s1 !! ws).
Proof.
  intros [Hnd Hreg] Hstep.
  destruct ev as [ws cid accept | ws received]; simpl in Hstep.
  - split; [|intros ws' Hin; by apply elem_of_nil in Hin].
    destruct (tasks s !! ws) eqn:Hws; [done|].
    symmetry. unfold closed; simpl.
    destruct accept as [[]|e]; simpl in Hstep; injection Hstep as <-;
      unfold opened, registry; simpl; rewrite ?app_nil_r;
      apply filter_all; intros x _; apply not_elem_of_nil.
  - destruct (tasks s !! ws) as [[cid [|]]|] eqn:Hws; try done.
    destruct received as [data|e]; simpl in Hstep.
    + split; [|intros ws' Hin; by apply elem_of_nil in Hin].
      destruct (loop_body_frame json_loads exn_str cid ws data) as [m Hm].
      unfold loop_body, bind, lift in Hm, Hstep. rewrite Hm in Hstep.
      injection Hstep as <-. unfold closed, opened, registry. simpl.
      rewrite app_nil_r. symmetry.
      apply filter_all; intros x _; apply not_elem_of_nil.
    + assert (ws ∈ registry s) as Hin by (apply Hreg; by eexists).
      destruct (finish_registered ws e _ Hin) as (l & Hr & Hf).
      unfold loop_body, bind, lift in Hstep. rewrite Hf in Hstep.
      injection Hstep as <-. unfold closed, opened, registry in *. simpl.
      split.
      * rewrite app_nil_r. rewrite (list_remove_filter _ _ _ Hnd Hr).
        apply list_filter_iff. intros x. by rewrite list_elem_of_singleton.
      * intros ws' ->%list_elem_of_singleton. by rewrite lookup_insert_eq.
Qed.

Lemma sys_run_registry trace : ∀ s s',
  consistent s →
  sys_run json_loads exn_str s trace = Some s' →
  registry s'
  = filter (λ ws, ws ∉ closed trace) (registry s ++ opened trace)%list.
Proof.
  induction trace as [|ev trace IH]; intros s s' Hc Hrun; simpl in Hrun.
  - injection Hrun as <-. unfold opened, closed. simpl. rewrite app_nil_r.
    symmetry. apply filter_all; intros x _; apply not_elem_of_nil.
  - destruct (sys_step json_loads exn_str s ev) as [s1|] eqn:Hstep; [|done].
    destruct (sys_step_consistent json_loads exn_str _ _ _ Hc Hstep) as [Hc1 _].
    destruct (sys_step_registry _ _ _ Hc Hstep) as [Hr1 Hcl].
    rewrite (IH _ _ Hc1 Hrun), Hr1.
    rewrite (opened_cons ev trace), (closed_cons ev trace).
    assert (filter (λ ws, ws ∉ closed [ev]) (opened trace) = opened trace)
      as Hlater.
    { apply filter_all. intros x Hx Hin.
      apply (opened_fresh trace s1 s' x Hrun); [by apply Hcl | done]. }
    rewrite <- Hlater at 1. rewrite <- filter_app, <- app_assoc.
    rewrite list_filter_filter. apply list_filter_iff.
    intros x. rewrite not_elem_of_app. tauto.
Qed.

(** X8.  The registry lists the connections whose loop is running in the
    order in which they were accepted: it is the list of the accepted
    sockets, in order, without those whose loop has ended. *)
Theorem registry_in_acceptance_order trace s :
  sys_run json_loads exn_str boot trace = Some s →
  registry s = filter (λ ws, ws ∉ closed trace) (opened trace).
Proof.
  intros Hrun.
  by rewrite (sys_run_registry trace boot s consistent_boot Hrun).
Qed.

End Replies.

(** *** Broadcast *)

Section Broadcast.
Variable send_text : WebSocket -> result unit.
Implicit Types (st : State) (ws : WebSocket).

Lemma only_exceptions_cons ws l :
  only_exceptions send_text (ws :: l) = true →
  (∀ e, send_text ws = Raise e → is_Exception e = true) ∧
  only_exceptions send_text l = true.
Proof.
  unfold only_exceptions. simpl. intros [H1 H2]%andb_prop. split; [|done].
  intros e He. by rewrite He in H1.
Qed.

Lemma broadcast_loop_all message (connections : list WebSocket) : ∀ st,
  only_exceptions send_text connections = true →
  broadcast_loop send_text message connections st
  = (Ok tt, mkState (active_connections st)
              (sent st ++ map (λ ws, (ws, message)) connections)).
Proof.
  induction connections as [|ws l IH]; intros st Hs; simpl.
  - rewrite app_nil_r. by destruct st.
  - apply only_exceptions_cons in Hs as [Hws Hl].
    unfold bind, try_except.
    destruct (send_text ws) as [[]|e] eqn:E.
    + rewrite IH by done. simpl. by rewrite <- app_assoc.
    + rewrite (Hws e) by done. unfold ret.
      rewrite IH by done. simpl. by rewrite <- app_assoc.
Qed.

Lemma broadcast_loop_stops message (l1 l2 : list WebSocket) ws e : ∀ st,
  only_exceptions send_text l1 = true →
  send_text ws = Raise e → is_Exception e = false →
  broadcast_loop send_text message (l1 ++ ws :: l2) st
  = (Raise e, mkState (active_connections st)
                (sent st ++ map (λ ws, (ws, message)) (l1 ++ [ws]))).
Proof.
  induction l1 as [|w l1 IH]; intros st Hs Hws He; simpl.
  - unfold bind, try_except. rewrite Hws, He. done.
  - apply only_exceptions_cons in Hs as [Hw Hl].
    unfold bind, try_except.
    destruct (send_text w) as [[]|e0] eqn:E.
    + rewrite IH by done. simpl. by rewrite <- app_assoc.
    + rewrite (Hw e0) by done. unfold ret.
      rewrite IH by done. simpl. by rewrite <- app_assoc.
Qed.

Lemma transcript_alone message (connections : list WebSocket) :
  transcript message connections [] = map (λ ws, (ws, message)) connections.
Proof. induction connections as [|ws l IH]; simpl; by f_equal. Qed.

(** Tasks that only write leave the registry as it is. *)
Lemma perform_writes (during : list interference) : ∀ st,
  forallb is_write during = true →
  foldl perform st during
  = mkState (active_connections st) (sent st ++ writes during).
Proof.
  induction during as [|op during IH]; intros st Hw; simpl.
  - rewrite app_nil_r. by destruct st.
  - simpl in Hw. apply andb_prop in Hw as [Hop Hw].
    destruct op as [| |ws message]; try done.
    rewrite IH by done. simpl. by rewrite <- app_assoc.
Qed.

Lemma broadcast_among_all message (others : list (list interference)) :
  ∀ (l1 l2 : list WebSocket) st,
    active_connections st = (l1 ++ l2)%list →
    only_exceptions send_text l2 = true →
    forallb (forallb is_write) others = true →
    broadcast_among send_text message others (length l1) st
    = (Ok tt, mkState (active_connections st)
                (sent st ++ transcript message l2 others)).
Proof.
  induction others as [|during others IH]; intros l1 l2 st Hreg Hs Hw.
  - simpl. rewrite Hreg at 1. rewrite drop_app_length.
    rewrite transcript_alone. by apply broadcast_loop_all.
  - simpl in Hw. apply andb_prop in Hw as [Hduring Hw].
    cbn [broadcast_among]. rewrite Hreg at 1.
    destruct l2 as [|ws l2].
    + rewrite app_nil_r, lookup_ge_None_2 by done.
      simpl. rewrite app_nil_r. by destruct st.
    + rewrite list_lookup_middle by done.
      apply only_exceptions_cons in Hs as [Hws Hl].
      assert (broadcast_among send_text message others (S (length l1))
                (foldl perform (sent_to ws message st) during)
              = (Ok tt,
                 mkState (active_connections st)
                   (sent st ++ transcript message (ws :: l2) (during :: others))))
        as Hrest.
      { rewrite perform_writes by done.
        replace (S (length l1)) with (length (l1 ++ [ws])%list)
          by (rewrite length_app; simpl; lia).
        rewrite (IH (l1 ++ [ws])%list l2); try done.
        - simpl. by rewrite <- !app_assoc.
        - simpl. by rewrite Hreg, <- app_assoc. }
      unfold bind, try_except.
      destruct (send_text ws) as [[]|e] eqn:E; [done|].
      rewrite (Hws e) by done. done.
Qed.

(** X9.  While no other task opens or closes a connection (the other
    tasks may write), a broadcast hands the message to every registered
    socket, once each and in the order of the registry, and returns, even
    if [send_text] raises an [Exception] for some of them: a failed send
    does not keep the later sockets from being served.  The registry is
    not changed. *)
Theorem broadcast_serves_every_connection message
    (others : list (list interference)) st :
  only_exceptions send_text (active_connections st) = true →
  forallb (forallb is_write) others = true →
  broadcast_among send_text message others 0 st
  = (Ok tt, mkState (active_connections st)
              (sent st ++ transcript message (active_connections st) others)).
Proof.
  intros Hs Hw. by apply (broadcast_among_all message others [] _ st).
Qed.

(** X10.  An exception of [send_text] that is not an [Exception] (a
    cancellation) is not caught: the broadcast raises it, and the sockets
    registered after the one where it occurred are not served. *)
Theorem broadcast_stops_at_cancellation message (l1 l2 : list WebSocket) ws e st :
  active_connections st = (l1 ++ ws :: l2)%list →
  only_exceptions send_text l1 = true →
  send_text ws = Raise e →
  is_Exception e = false →
  broadcast send_text message st
  = (Raise e, mkState (active_connections st)
                (sent st ++ map (λ ws, (ws, message)) (l1 ++ [ws]))).
Proof.
  intros Hreg Hs Hws He. unfold broadcast. rewrite Hreg at 1.
  by apply broadcast_loop_stops.
Qed.

End Broadcast.

(** *** The properties above, on examples *)

Lemma echo_with_bad_event_id_example :
  loop_body JsonText.loads JsonText.exn_str "unknown" 0
    (Ok (JsonText.text "{'type':'action','actionType':'ECHO_ACTION','eventId':5}"))
    init
  = (Ok tt,
     sent_to 0
       (dict [("error",
               JStr "Server error: unsupported operand type(s) for +: 'int' and 'str'")])
       init).
Proof.
  apply (echo_with_bad_event_id JsonText.loads JsonText.exn_str "unknown" 0%nat _
           (list_to_map [("type", JStr "action");
                         ("actionType", JStr "ECHO_ACTION");
                         ("eventId", JInt 5)]) (JInt 5) init);
    try (vm_compute; reflexivity).
  intros e. discriminate.
Defined.


Lemma session_round_trip_example :
  websocket_endpoint JsonText.loads JsonText.exn_str 7 "unknown" (Ok tt)
    (map Ok ["not json"; echo_frame] ++ [Raise WebSocketDisconnect; Ok echo_frame])
    (mkState [1; 2] [])
  = (Closed (Ok tt),
     mkState [1; 2]
       [(7%nat, invalid_json);
        (7%nat, observation "e1" (JStr "t1") (dict [("x", JInt 1)]))]).
Proof.
  rewrite (session_round_trip JsonText.loads JsonText.exn_str "unknown" 7%nat
             ["not json"; echo_frame] WebSocketDisconnect [Ok echo_frame]
             (mkState [1; 2]%nat [])).
  - vm_compute. reflexivity.
  - intros Hin. apply list_elem_of_In in Hin. simpl in Hin.
    destruct Hin as [?|[?|[]]]; discriminate.
Defined.

Lemma replies_go_to_the_sender_example :
  ∃ s, sys_run JsonText.loads JsonText.exn_str boot busy_trace = Some s ∧
       sent (state s)
       = [(1%nat, observation "e1" (JStr "t1") (dict [("x", JInt 1)]));
          (3%nat, invalid_json)].
Proof.
  assert (∃ s, sys_run JsonText.loads JsonText.exn_str boot busy_trace = Some s)
    as [s Hrun].
  { eexists. vm_compute. reflexivity. }
  exists s. split; [done|].
  rewrite (replies_go_to_the_sender JsonText.loads JsonText.exn_str busy_trace s Hrun).
  vm_compute. reflexivity.
Defined.

Lemma registry_in_acceptance_order_example :
  ∃ s, sys_run JsonText.loads JsonText.exn_str boot busy_trace = Some s ∧
       registry s = [1; 3]%nat.
Proof.
  assert (∃ s, sys_run JsonText.loads JsonText.exn_str boot busy_trace = Some s)
    as [s Hrun].
  { eexists. vm_compute. reflexivity. }
  exists s. split; [done|].
  rewrite (registry_in_acceptance_order JsonText.loads JsonText.exn_str
             busy_trace s Hrun).
  reflexivity.
Defined.

Lemma broadcast_serves_every_connection_example :
  broadcast_among broken_second notice [[Writes 3 acknowledgment]; []] 0 three_sockets
  = (Ok tt, mkState [1; 2; 3]%nat
              [(1%nat, notice); (3%nat, acknowledgment);
               (2%nat, notice); (3%nat, notice)]).
Proof.
  apply (broadcast_serves_every_connection broken_second notice
           [[Writes 3 acknowledgment]; []] three_sockets); reflexivity.
Defined.

(** The first socket closes while the message is sent to it: the registry
    shifts under the iterator, and the second socket is passed over. *)
Example broadcast_passes_over_a_socket :
  broadcast_among (λ _, Ok tt) notice [[Disconnects 1]] 0 three_sockets
  = (Ok tt, mkState [2; 3]%nat [(1%nat, notice); (3%nat, notice)]).
Proof. reflexivity. Qed.

(** A socket accepted while the broadcast runs is served as well. *)
Example broadcast_reaches_a_newcomer :
  broadcast_among (λ _, Ok tt) notice [[Connects 4]] 0 three_sockets
  = (Ok tt, mkState [1; 2; 3; 4]%nat
              [(1%nat, notice); (2%nat, notice); (3%nat, notice); (4%nat, notice)]).
Proof. reflexivity. Qed.

(** With no other task running, this is the uninterrupted broadcast. *)
Example broadcast_among_nobody send_text message st :
  broadcast_among send_text message [] 0 st = broadcast send_text message st.
Proof. reflexivity. Qed.

(** The reference decoder refuses a leading zero, as [json.loads] does. *)
Example loads_leading_zero :
  JsonText.loads "01" = None ∧ JsonText.loads "-01" = None ∧
  JsonText.loads "0" = Some (JInt 0) ∧ JsonText.loads "-0" = Some (JInt 0) ∧
  JsonText.loads "10" = Some (JInt 10).
Proof. repeat split. Qed.

Lemma broadcast_stops_at_cancellation_example :
  broadcast cancelled_at_second notice three_sockets
  = (Raise CancelledError,
     mkState [1; 2; 3]%nat [(1%nat, notice); (2%nat, notice)]).
Proof.
  apply (broadcast_stops_at_cancellation cancelled_at_second notice
           [1%nat] [3%nat] 2%nat CancelledError three_sockets); reflexivity.
Defined.

End GatewayMore.

(** ** The validators of the sign-up and password-reset schemas *)

Module ValidatorFacts.
Import Py Re.

Lemma re_search_chars p (s : string) :
  re_search (Chars p) s = existsb p (list_ascii_of_string s).
Proof.
  induction s as [|c s IH]; simpl; [done|].
  unfold re_match. simpl. by rewrite andb_true_r, IH.
Qed.

Lemma append_empty_r (s : string) : s +:+ EmptyString = s.
Proof.
  induction s as [|c s IH]; [done|].
  change (String c (s +:+ EmptyString) = String c s). by f_equal.
Qed.

(** [p+] followed by [k]: a run of characters of [p], not empty, after
    which [k] holds. *)
Lemma iterate_chars p k (s : string) : ∀ fuel,
  (String.length s ≤ S fuel)%nat →
  iterate (accepts (Chars p)) k fuel s = true
  ↔ ∃ body rest : string,
      s = body +:+ rest ∧ body ≠ EmptyString ∧
      forallb p (list_ascii_of_string body) = true ∧ k rest = true.
Proof.
  induction s as [|c s IH]; intros fuel Hfuel.
  - destruct fuel; simpl; (split; [done|]);
      intros (body & rest & Hs & Hb & _); by destruct body.
  - assert (iterate (accepts (Chars p)) k fuel (String c s)
            = p c && (k s || match fuel with
                             | O => false
                             | S fuel' => iterate (accepts (Chars p)) k fuel' s
                             end)) as -> by (by destruct fuel).
    split.
    + intros [Hc Hrest]%andb_prop. apply orb_prop in Hrest as [Hk | Hloop].
      * exists (String c EmptyString), s. simpl. by rewrite Hc.
      * destruct fuel as [|fuel']; [done|].
        apply IH in Hloop as (body & rest & -> & Hb & Hall & Hk);
          [|simpl in Hfuel; lia].
        exists (String c body), rest. simpl. by rewrite Hc, Hall.
    + intros (body & rest & Hs & Hb & Hall & Hk).
      destruct body as [|c' body]; [done|].
      change (String c s = String c' (body +:+ rest)) in Hs.
      injection Hs as <- ->. simpl in Hall.
      apply andb_prop in Hall as [Hc Hall]. rewrite Hc. simpl.
      destruct body as [|c2 body].
      * change (EmptyString +:+ rest) with rest. by rewrite Hk.
      * apply orb_true_intro. right.
        destruct fuel as [|fuel']; [simpl in Hfuel; lia|].
        apply IH; [simpl in *; lia|].
        exists (String c2 body), rest. done.
Qed.

Lemma at_eol_spec (s : string) :
  at_eol s = true ↔ s = EmptyString ∨ s = String newline EmptyString.
Proof.
  destruct s as [|c [|c' s]]; simpl.
  - split; [by left | done].
  - split.
    + intros ->%Ascii.eqb_eq. by right.
    + intros [?|[= ->]]; [done|]. apply Ascii.eqb_refl.
  - split; [done | by intros [?|?]].
Qed.

(** X11.  [username_alphanumeric] accepts a username, and returns it as it
    is, exactly when it is a run of letters, digits, [_] and [-] that is
    not empty, alone or followed by one newline: [$] also matches before
    a newline that ends the string. *)
Theorem username_accepted (v v' : string) :
  UserSignUp.username_alphanumeric v = Ok v'
  ↔ v' = v ∧
    ∃ body : string,
      body ≠ EmptyString ∧
      forallb word (list_ascii_of_string body) = true ∧
      (v = body ∨ v = body +:+ String newline EmptyString).
Proof.
  unfold UserSignUp.username_alphanumeric, re_match, UserSignUp.username_re.
  cbn [accepts].
  pose proof (iterate_chars word (λ s', accepts Eol s' (λ _, true)) v
                (String.length v) ltac:(lia)) as Hit.
  destruct (iterate _ _ _ v) eqn:E; simpl.
  - split.
    + intros [= <-]. split; [done|].
      destruct (proj1 Hit eq_refl) as (body & rest & -> & Hb & Hall & Hk).
      exists body. split; [done|]. split; [done|].
      simpl in Hk. rewrite andb_true_r in Hk.
      apply at_eol_spec in Hk as [-> | ->]; [left | by right].
      apply append_empty_r.
    + by intros [-> _].
  - split; [done|]. intros [_ (body & Hb & Hall & Hv)]. exfalso.
    assert (false = true) as Habs; [|done].
    apply Hit. destruct Hv as [-> | ->].
    + exists body, EmptyString. split; [|done]. symmetry. apply append_empty_r.
    + exists body, (String newline EmptyString). repeat split; try done.
Qed.

(** X12.  [password_strength] accepts a password, and returns it as it is,
    exactly when it has at least eight characters, an uppercase letter, a
    lowercase letter and a digit; when it rejects one, it raises a
    [ValueError]; and the validator of the password reset decides as the
    validator of the sign-up does. *)
Theorem strong_passwords (v v' : string) :
  (UserSignUp.password_strength v = Ok v'
   ↔ v' = v ∧ (8 ≤ len v)%nat ∧
     existsb upper (list_ascii_of_string v) = true ∧
     existsb lower (list_ascii_of_string v) = true ∧
     existsb digit (list_ascii_of_string v) = true) ∧
  (∀ e, UserSignUp.password_strength v = Raise e →
        ∃ msg, e = ValueError (JStr msg)) ∧
  PasswordResetConfirm.password_strength v = UserSignUp.password_strength v.
Proof.
  split; [|split; [|reflexivity]].
  - unfold UserSignUp.password_strength. rewrite !re_search_chars.
    destruct (Nat.ltb_spec (len v) 8); [split; [done | intros (_ & ? & _); lia]|].
    destruct (existsb upper _); simpl;
      [|split; [done | by intros (_ & _ & ? & _)]].
    destruct (existsb lower _); simpl;
      [|split; [done | by intros (_ & _ & _ & ? & _)]].
    destruct (existsb digit _); simpl;
      [|split; [done | by intros (_ & _ & _ & _ & ?)]].
    split; [by intros [= <-] | by intros [-> _]].
  - intros e. unfold UserSignUp.password_strength.
    repeat case_match; intros [= <-]; by eexists.
Qed.

Lemma username_accepted_example :
  UserSignUp.username_alphanumeric "user-name_1" = Ok "user-name_1".
Proof.
  apply (username_accepted "user-name_1" "user-name_1").
  split; [reflexivity|]. exists "user-name_1".
  split; [discriminate|]. split; [reflexivity | by left].
Defined.

Lemma strong_passwords_example :
  UserSignUp.password_strength "Valid1Pass" = Ok "Valid1Pass" ∧
  ∃ msg, UserSignUp.password_strength "short1A" = Raise (ValueError (JStr msg)).
Proof.
  destruct (strong_passwords "Valid1Pass" "Valid1Pass") as (Hiff & _ & _).
  destruct (strong_passwords "short1A" "short1A") as (_ & Hraise & _).
  split.
  - apply Hiff. split; [reflexivity|]. split; [vm_compute; lia|].
    repeat split.
  - destruct (Hraise _ eq_refl) as [msg Hm]. exists msg.
    rewrite <- Hm. reflexivity.
Defined.

(** Accepted and rejected usernames and passwords. *)
Example username_examples :
  UserSignUp.username_alphanumeric "user-name_1" = Ok "user-name_1" ∧
  (∃ e, UserSignUp.username_alphanumeric "user.name" = Raise e) ∧
  (∃ e, UserSignUp.username_alphanumeric "user name" = Raise e) ∧
  (∃ e, UserSignUp.username_alphanumeric EmptyString = Raise e).
Proof. repeat split; by eexists. Qed.

Example password_examples :
  UserSignUp.password_strength "Valid1Pass" = Ok "Valid1Pass" ∧
  UserSignUp.password_strength "short1A"
  = Raise (ValueError (JStr "Password must be at least 8 characters")) ∧
  UserSignUp.password_strength "alllowercase1"
  = Raise (ValueError (JStr "Password must contain at least one uppercase letter")) ∧
  UserSignUp.password_strength "ALLUPPERCASE1"
  = Raise (ValueError (JStr "Password must contain at least one lowercase letter")) ∧
  UserSignUp.password_strength "NoDigitsHere"
  = Raise (ValueError (JStr "Password must contain at least one digit")).
Proof. repeat split. Qed.

End ValidatorFacts.

(** ** The guest schema: what the root validator leaves alone *)

Module AuthMore.
Import Py Py.Notations Auth Examples.

Section Guest.
Variable Gen : Type.
Variable genrand_res53 : Gen -> Z * Gen.

(** X13.  The root validator changes no field but [username], [email] and
    [is_guest]; it keeps a username and an email that the request
    supplies; and when the request supplies both, it draws no random
    number. *)
Theorem supplied_credentials_are_kept
    (values values' : gmap string json) (g g' : Gen) :
  generate_guest_credentials Gen genrand_res53 values g = (Ok values', g') →
  (∀ key, key ≠ "username" → key ≠ "email" → key ≠ "is_guest" →
          values' !! key = values !! key) ∧
  (truthy (default JNull (values !! "username")) = true →
   values' !! "username" = values !! "username") ∧
  (truthy (default JNull (values !! "email")) = true →
   values' !! "email" = values !! "email") ∧
  (truthy (default JNull (values !! "username")) = true →
   truthy (default JNull (values !! "email")) = true →
   g' = g ∧ values' = <["is_guest" := JBool true]> values).
Proof.
  unfold generate_guest_credentials.
  set (c6 := choices _ _ alphabet 6). set (c8 := choices _ _ alphabet 8).
  clearbody c6 c8. unfold bind, ret.
  destruct (truthy (default JNull (values !! "username"))) eqn:Tu; cbn [negb].
  - destruct (truthy (default JNull (values !! "email"))) eqn:Te; cbn [negb].
    + intros [= <- <-]. repeat split; intros; try done;
        by rewrite !lookup_insert_ne.
    + destruct (c8 g) as [[l2|e] g2]; [|intros [=]]. intros [= <- <-].
      repeat split; intros; try done; by rewrite !lookup_insert_ne.
  - destruct (c6 g) as [[l1|e] g1]; [|intros [=]].
    rewrite (lookup_insert_ne _ "username" "email") by done.
    destruct (truthy (default JNull (values !! "email"))) eqn:Te; cbn [negb].
    + intros [= <- <-].
      repeat split; intros; try done; by rewrite !lookup_insert_ne.
    + destruct (c8 g1) as [[l2|e] g2]; [|intros [=]]. intros [= <- <-].
      repeat split; intros; try done; by rewrite !lookup_insert_ne.
Qed.

Lemma generate_supplied (values : gmap string json) (g : Gen) :
  truthy (default JNull (values !! "username")) = true →
  truthy (default JNull (values !! "email")) = true →
  generate_guest_credentials Gen genrand_res53 values g
  = (Ok (<["is_guest" := JBool true]> values), g).
Proof.
  intros Tu Te. unfold generate_guest_credentials, bind, ret.
  rewrite Tu. cbn [negb]. rewrite Te. reflexivity.
Qed.

(** What the root validator returns has a username, an email and the
    guest flag. *)
Lemma generate_shape (values values' : gmap string json) (g g' : Gen) :
  generate_guest_credentials Gen genrand_res53 values g = (Ok values', g') →
  truthy (default JNull (values' !! "username")) = true ∧
  truthy (default JNull (values' !! "email")) = true ∧
  values' !! "is_guest" = Some (JBool true).
Proof.
  unfold generate_guest_credentials.
  set (c6 := choices _ _ alphabet 6). set (c8 := choices _ _ alphabet 8).
  clearbody c6 c8. unfold bind, ret.
  destruct (truthy (default JNull (values !! "username"))) eqn:Tu; cbn [negb].
  - destruct (truthy (default JNull (values !! "email"))) eqn:Te; cbn [negb].
    + intros [= <- <-]. by simplify_map_eq.
    + destruct (c8 g) as [[l2|e] g2]; [|intros [=]]. intros [= <- <-].
      by simplify_map_eq.
  - destruct (c6 g) as [[l1|e] g1]; [|intros [=]].
    rewrite (lookup_insert_ne _ "username" "email") by done.
    destruct (truthy (default JNull (values !! "email"))) eqn:Te; cbn [negb].
    + intros [= <- <-]. by simplify_map_eq.
    + destruct (c8 g1) as [[l2|e] g2]; [|intros [=]]. intros [= <- <-].
      by simplify_map_eq.
Qed.

(** X14.  The root validator is idempotent: run on its own result, in any
    state of the generator, it returns the same values and draws no
    random number. *)
Theorem generate_guest_credentials_idempotent
    (values values' : gmap string json) (g g' g2 : Gen) :
  generate_guest_credentials Gen genrand_res53 values g = (Ok values', g') →
  generate_guest_credentials Gen genrand_res53 values' g2 = (Ok values', g2).
Proof.
  intros (Tu & Te & Hg)%generate_shape.
  rewrite generate_supplied by done. by rewrite insert_id.
Qed.

End Guest.

Lemma supplied_credentials_are_kept_example :
  let values' : gmap string json := <["is_guest" := JBool true]> alice_request in
  generate_guest_credentials Z lcg alice_request 42%Z = (Ok values', 42%Z) ∧
  values' !! "locale" = Some (JStr "fr") ∧
  values' !! "username" = Some (JStr "alice") ∧
  values' !! "email" = Some (JStr "alice@example.org").
Proof.
  intros values'.
  assert (generate_guest_credentials Z lcg alice_request 42%Z
          = (Ok values', 42%Z)) as Hrun by (vm_compute; reflexivity).
  destruct (supplied_credentials_are_kept Z lcg alice_request values'
              42%Z 42%Z Hrun) as (Hother & Hu & He & _).
  split; [exact Hrun|]. split; [|split].
  - rewrite Hother by discriminate. reflexivity.
  - rewrite Hu by reflexivity. reflexivity.
  - rewrite He by reflexivity. reflexivity.
Defined.

Lemma generate_guest_credentials_idempotent_example :
  fst (generate_guest_credentials Z lcg not_a_guest 42%Z) = Ok drawn_guest ∧
  generate_guest_credentials Z lcg drawn_guest 7%Z = (Ok drawn_guest, 7%Z).
Proof.
  assert (generate_guest_credentials Z lcg not_a_guest 42%Z
          = (Ok drawn_guest,
             snd (generate_guest_credentials Z lcg not_a_guest 42%Z))) as Hrun
    by (vm_compute; reflexivity).
  split; [rewrite Hrun; reflexivity|].
  exact (generate_guest_credentials_idempotent Z lcg not_a_guest drawn_guest
           42%Z _ 7%Z Hrun).
Defined.

End AuthMore.

(** ** The settings: the shapes of [BACKEND_CORS_ORIGINS] *)

Module ConfigMore.
Import Py Config.

Lemma split_nonempty sep s : split sep s ≠ [].
Proof. destruct s as [|c s]; simpl; [done|]. by repeat case_match. Qed.

(** [split] yields one part more than there are separators. *)
Lemma split_length sep (s : string) :
  length (split sep s) = S (occurrences sep s).
Proof.
  unfold occurrences. induction s as [|c s IH]; simpl; [done|].
  rewrite filter_cons. destruct (Ascii.eqb_spec c sep) as [->|Hne].
  - rewrite decide_True by done. simpl. by rewrite IH.
  - rewrite decide_False by done.
    pose proof (split_nonempty sep s). destruct (split sep s); [done|].
    simpl in *. done.
Qed.

Lemma split_no_separator sep (s : string) :
  Forall (λ part, sep ∉ list_ascii_of_string part) (split sep s).
Proof.
  induction s as [|c s IH]; simpl.
  - constructor; [apply not_elem_of_nil | constructor].
  - destruct (Ascii.eqb_spec c sep) as [->|Hne].
    + constructor; [apply not_elem_of_nil | done].
    + destruct (split sep s) as [|w ws]; simpl.
      * constructor; [|constructor]. simpl.
        intros [?|Hin%elem_of_nil]%elem_of_cons; done.
      * apply Forall_cons in IH as [Hw Hws]. constructor; [|done].
        simpl. intros [?|?]%elem_of_cons; done.
Qed.

(** [lstrip] drops blanks in front and nothing else. *)
Lemma lstrip_spec (s : string) :
  ∃ blanks : list ascii,
    list_ascii_of_string s = (blanks ++ list_ascii_of_string (lstrip s))%list ∧
    Forall (λ c, is_space c = true) blanks ∧
    match list_ascii_of_string (lstrip s) with
    | [] => True
    | c :: _ => is_space c = false
    end.
Proof.
  induction s as [|c s (blanks & Hs & Hb & Hh)]; simpl.
  - by exists [].
  - destruct (is_space c) eqn:E.
    + exists (c :: blanks). simpl. rewrite <- Hs. by repeat constructor.
    + exists []. simpl. by rewrite E.
Qed.

Lemma list_of_string_rev (s : string) :
  list_ascii_of_string (string_rev s) = rev (list_ascii_of_string s).
Proof. unfold string_rev. apply list_ascii_of_string_of_list_ascii. Qed.

(** [strip] cuts blanks off both ends and nothing else; what is left is
    empty or has no blank at either end. *)
Lemma strip_spec (s : string) :
  ∃ front back : list ascii,
    list_ascii_of_string s
    = (front ++ list_ascii_of_string (strip s) ++ back)%list ∧
    Forall (λ c, is_space c = true) front ∧
    Forall (λ c, is_space c = true) back ∧
    is_stripped (strip s) = true.
Proof.
  unfold strip, is_stripped.
  destruct (lstrip_spec s) as (front & Hs & Hfront & Hhead).
  destruct (lstrip_spec (string_rev (lstrip s))) as (kcab & Hr & Hback & Hlast).
  rewrite list_of_string_rev in *.
  set (t := list_ascii_of_string (lstrip s)) in *.
  set (u := list_ascii_of_string (lstrip (string_rev (lstrip s)))) in *.
  assert (t = (rev u ++ rev kcab)%list) as Ht.
  { rewrite <- rev_app_distr, <- Hr. by rewrite rev_involutive. }
  exists front, (rev kcab). rewrite <- Ht. split; [done|]. split; [done|].
  split; [by apply Forall_rev|].
  destruct (rev u) as [|c l] eqn:Eu; [done|].
  assert (u = rev (c :: l)) as Hu by (by rewrite <- Eu, rev_involutive).
  apply andb_true_intro. split.
  - rewrite Ht in Hhead. simpl in Hhead. by rewrite Hhead.
  - simpl in Hu. rewrite Hu in Hlast.
    destruct l as [|c' l] using rev_ind.
    + simpl in *. by rewrite Hlast.
    + rewrite last_last. rewrite rev_app_distr in Hlast. simpl in Hlast.
      by rewrite Hlast.
Qed.

Lemma strip_no_separator sep (s : string) :
  sep ∉ list_ascii_of_string s → sep ∉ list_ascii_of_string (strip s).
Proof.
  destruct (strip_spec s) as (front & back & Hs & _).
  rewrite Hs. rewrite !not_elem_of_app. tauto.
Qed.

(** X15.  A string that does not start with [[] resolves to a list of
    strings that has one origin more than the string has commas (so it is
    never empty); no origin holds a comma, and each is empty or has no
    blank at either end. *)
Theorem comma_separated_origins (s : string) :
  startswith s "[" = false →
  ∃ parts : list string,
    assemble_cors_origins (JStr s) = Ok (JArr (map JStr parts)) ∧
    length parts = S (occurrences "," s) ∧
    Forall (λ part, (","%char ∉ list_ascii_of_string part) ∧
                    is_stripped part = true) parts.
Proof.
  intros Hs. exists (map strip (split "," s)). split; [|split].
  - simpl. rewrite Hs. simpl. by rewrite map_map.
  - by rewrite length_map, split_length.
  - apply Forall_map. eapply Forall_impl; [apply split_no_separator|].
    intros part Hpart. simpl. split; [by apply strip_no_separator|].
    by destruct (strip_spec part) as (? & ? & _ & _ & _ & ?).
Qed.

(** X16.  The validator returns a value exactly for [None], a string or a
    list; a list, and a string that starts with [[], are returned as they
    are, the string still a string. *)
Theorem cors_shapes (v : json) :
  ((∃ r, assemble_cors_origins v = Ok r)
   ↔ is_None v || isinstance_str v || isinstance_list v = true) ∧
  (isinstance_list v = true → assemble_cors_origins v = Ok v) ∧
  (∀ s, v = JStr s → startswith s "[" = true → assemble_cors_origins v = Ok v).
Proof.
  split; [|split].
  - destruct v; simpl; try (split; [by intros [? ?] | done]);
      (split; [done|]; intros _; repeat case_match; by eexists).
  - by destruct v.
  - intros s -> Hs. simpl. by rewrite Hs.
Qed.

Lemma comma_separated_origins_example :
  ∃ parts : list string,
    assemble_cors_origins (JStr " http://a.com , http://b.com ,")
    = Ok (JArr (map JStr parts)) ∧
    length parts = 3%nat.
Proof.
  destruct (comma_separated_origins " http://a.com , http://b.com ,")
    as (parts & Hr & Hlen & _); [reflexivity|].
  exists parts. split; [exact Hr | exact Hlen].
Defined.

Lemma cors_shapes_example :
  assemble_cors_origins (JArr [JInt 1]) = Ok (JArr [JInt 1]) ∧
  assemble_cors_origins (JStr "[not json") = Ok (JStr "[not json").
Proof.
  split.
  - apply (cors_shapes (JArr [JInt 1])). reflexivity.
  - destruct (cors_shapes (JStr "[not json")) as (_ & _ & Hstr).
    apply (Hstr "[not json"); reflexivity.
Defined.

End ConfigMore.

(** ** The subscription API: project order, pagination *)

Module SubscriptionMore.
Import Py Subscription Examples.

Lemma foldl_add_perm (l l' : list Z) :
  l ≡ₚ l' → ∀ a, foldl Z.add a l = foldl Z.add a l'.
Proof.
  induction 1 as [|x l l' _ IH|x y l|l l' l'' _ IH1 _ IH2]; intros a; simpl.
  - done.
  - apply IH.
  - f_equal. lia.
  - by rewrite IH1.
Qed.

Section Claims.
Variables AsyncSession SubscriptionSchema : Type.
Variable plan_value : SubscriptionPlan -> string.

(** X17.  The answer of [GET /subscription] does not depend on the order
    in which the projects of the user are listed, nor on the session. *)
Theorem usage_ignores_project_order (db db' : AsyncSession) (u u' : User) :
  subscription_plan u = subscription_plan u' →
  tokens_used u = tokens_used u' →
  tokens_limit u = tokens_limit u' →
  projects u ≡ₚ projects u' →
  get_subscription_info AsyncSession SubscriptionSchema plan_value db u
  = get_subscription_info AsyncSession SubscriptionSchema plan_value db' u'.
Proof.
  intros Hplan Hused Hlimit Hperm. unfold get_subscription_info.
  rewrite Hplan, Hused, Hlimit.
  rewrite (Permutation_length Hperm).
  assert (sum (map total_size_kb (projects u))
          = sum (map total_size_kb (projects u'))) as Hsum.
  { apply foldl_add_perm. by apply fmap_Permutation. }
  rewrite Hsum.
  destruct (projects u) as [|p ps] eqn:Hp, (projects u') as [|p' ps'] eqn:Hp';
    try done.
  - by apply Permutation_nil_cons in Hperm.
  - symmetry in Hperm. by apply Permutation_nil_cons in Hperm.
Qed.

End Claims.

Lemma usage_ignores_project_order_example :
  get_subscription_info unit unit plan_value tt small_first
  = get_subscription_info unit unit plan_value tt large_first.
Proof.
  apply (usage_ignores_project_order unit unit plan_value tt tt
           small_first large_first); try reflexivity.
  apply Permutation_swap.
Defined.

Section Pagination.
Import Listing.
Variables AsyncSession User PaymentSchema : Type.

(** X18.  [GET /payments] reaches its handler exactly when [page], 1 if
    it is not sent, is at least 1 and [page_size], 20 if it is not sent,
    lies between 1 and 100; the answer then is the empty page: no
    payment, a total of 0, and the page and page size of the request. *)
Theorem pagination_bounds (db : AsyncSession) (page page_size : option Z)
    (current_user : User) (r : PaymentList PaymentSchema) :
  get_payments AsyncSession User PaymentSchema db page page_size current_user
  = Some r
  ↔ (1 ≤ default 1%Z page)%Z ∧ (1 ≤ default 20%Z page_size ≤ 100)%Z ∧
    r = mkPaymentList PaymentSchema [] 0 (default 1%Z page) (default 20%Z page_size).
Proof.
  unfold get_payments, Query, list_payments.
  destruct page as [p|], page_size as [n|]; simpl.
  all: repeat match goal with
         | |- context [(?a <? ?b)%Z] => destruct (Z.ltb_spec a b)
         end; simpl.
  all: split; [intros [= <-] | intros (? & ? & ->)]; try done; try lia.
  all: repeat split; try done; lia.
Qed.

End Pagination.

Lemma pagination_bounds_example :
  Listing.get_payments unit unit unit tt None (Some 50%Z) tt
  = Some (Listing.mkPaymentList unit [] 0 1 50).
Proof.
  apply (pagination_bounds unit unit unit tt None (Some 50%Z) tt).
  simpl. split; [lia|]. split; [lia | reflexivity].
Defined.

Example pagination_examples :
  Listing.get_payments unit unit unit tt (Some 0%Z) None tt = None ∧
  Listing.get_payments unit unit unit tt None (Some 101%Z) tt = None ∧
  Listing.get_payments unit unit unit tt None None tt
  = Some (Listing.mkPaymentList unit [] 0 1 20).
Proof. repeat split. Qed.

End SubscriptionMore.

(** ** The application: the catch-all error response *)

Module MainFacts.
Import Py Main.

Section Claims.
Variable exn_str : exn -> string.
Variable Request : Type.

(** X19.  The catch-all handler always answers with status 500 and the
    detail "Internal server error"; with [DEBUG] off the whole response is
    the same whatever the exception and the request, so nothing of the
    error reaches the client; with [DEBUG] on the message is the text of
    the exception. *)
Theorem handler_hides_the_error (request request' : Request) (exc exc' : exn)
    (DEBUG : bool) :
  global_exception_handler exn_str Request false request exc
  = global_exception_handler exn_str Request false request' exc' ∧
  status_code (global_exception_handler exn_str Request DEBUG request exc) = 500%Z ∧
  ∃ body : gmap string json,
    content (global_exception_handler exn_str Request DEBUG request exc)
    = JObj body ∧
    body !! "detail" = Some (JStr "Internal server error") ∧
    body !! "message"
    = Some (JStr (if DEBUG then exn_str exc else "An error occurred")) ∧
    size body = 2%nat.
Proof.
  split; [reflexivity|]. split; [reflexivity|].
  eexists. split; [reflexivity|]. repeat split.
Qed.

End Claims.

End MainFacts.

(** ** The database URL *)

Module SessionFacts.
Import Py Session.

Local Abbreviation old := postgres_driver.
Local Abbreviation new := sqlite_driver.

Lemma tails_self (u : string) : u ∈ tails u.
Proof. destruct u; left. Qed.

Lemma tails_tail x (w u : string) : String x w ∈ tails u → w ∈ tails u.
Proof.
  induction u as [|c u IH]; simpl.
  - intros [=]%list_elem_of_singleton.
  - intros [[= -> ->]|Hin]%elem_of_cons.
    + right. apply tails_self.
    + right. by apply IH.
Qed.

(** No proper suffix of the old driver name begins a text that begins
    with the new one. *)
Lemma new_clashes (w : string) :
  w ∈ tails "ostgresql+asyncpg" → w ≠ EmptyString →
  ∀ rest, String.prefix w (new +:+ rest) = false.
Proof.
  intros Hin Hne rest. simpl in Hin.
  repeat (apply elem_of_cons in Hin as [-> | Hin]; [reflexivity|]).
  by apply list_elem_of_singleton in Hin.
Qed.

Lemma replace_step c (t : string) :
  replace_from old new 0 (String c t)
  = if String.prefix old (String c t)
    then new +:+ replace_from old new 17 t
    else String c (replace_from old new 0 t).
Proof. reflexivity. Qed.

Lemma prefix_cons c1 c2 (a b : string) :
  String.prefix (String c1 a) (String c2 b) = true
  ↔ c1 = c2 ∧ String.prefix a b = true.
Proof.
  simpl. destruct (Ascii.ascii_dec c1 c2) as [->|Hne].
  - tauto.
  - split; [done | tauto].
Qed.

Lemma prefix_append (a rest : string) : String.prefix a (a +:+ rest) = true.
Proof.
  induction a as [|c a IH]; [by destruct rest|].
  apply prefix_cons. done.
Qed.

(** What follows the first letter of an occurrence in the result was
    already there in the text. *)
Lemma prefix_of_result (w : string) :
  w ∈ tails "ostgresql+asyncpg" →
  ∀ t, String.prefix w (replace_from old new 0 t) = true →
       String.prefix w t = true.
Proof.
  induction w as [|x w IH]; intros Hin t; [intros _; by destruct t|].
  destruct t as [|c t]; [simpl; done|].
  rewrite replace_step. destruct (String.prefix old (String c t)) eqn:E.
  - by rewrite new_clashes.
  - intros [-> Hw]%prefix_cons. apply prefix_cons. split; [done|].
    apply IH; [by eapply tails_tail | done].
Qed.

Lemma new_has_no_occurrence (rest : string) :
  is_substring old (new +:+ rest) = is_substring old rest.
Proof. reflexivity. Qed.

Lemma result_has_no_occurrence (s : string) : ∀ k,
  is_substring old (replace_from old new k s) = false.
Proof.
  induction s as [|c s IH]; intros k; [done|].
  destruct k as [|k]; [|apply IH].
  rewrite replace_step. destruct (String.prefix old (String c s)) eqn:E.
  - rewrite new_has_no_occurrence. apply IH.
  - change (String.prefix old (String c (replace_from old new 0 s))
            || is_substring old (replace_from old new 0 s) = false).
    rewrite IH, orb_false_r.
    destruct (String.prefix old (String c (replace_from old new 0 s))) eqn:E';
      [|done].
    apply prefix_cons in E' as [<- Hw].
    apply prefix_of_result in Hw; [|apply tails_self].
    assert (String.prefix old (String "p" s) = true) as Habs
      by (apply prefix_cons; done).
    congruence.
Qed.

Lemma unchanged_without_occurrence (s : string) :
  is_substring old s = false → replace_from old new 0 s = s.
Proof.
  induction s as [|c s IH]; [done|].
  change (is_substring old (String c s))
    with (String.prefix old (String c s) || is_substring old s).
  intros [E Hs]%orb_false_elim. rewrite replace_step, E. by rewrite IH.
Qed.

(** X20.  Whatever [DATABASE_URL] is, the URL given to the engine does
    not mention "postgresql+asyncpg" any more, and rewriting it again
    changes nothing. *)
Theorem sqlite_url_drops_the_driver (DATABASE_URL : string) :
  is_substring "postgresql+asyncpg" (sqlite_url DATABASE_URL) = false ∧
  sqlite_url (sqlite_url DATABASE_URL) = sqlite_url DATABASE_URL.
Proof.
  assert (is_substring old (sqlite_url DATABASE_URL) = false) as H
    by apply result_has_no_occurrence.
  split; [exact H|]. by apply unchanged_without_occurrence.
Qed.

(** X21.  A URL that does not mention "postgresql+asyncpg" is given to the
    engine as it is; a URL made of that driver name and of such a rest
    has the driver name replaced by "sqlite+aiosqlite" and the rest
    kept. *)
Theorem sqlite_url_rewrites_the_driver (rest : string) :
  is_substring "postgresql+asyncpg" rest = false →
  sqlite_url rest = rest ∧
  sqlite_url ("postgresql+asyncpg" +:+ rest) = "sqlite+aiosqlite" +:+ rest.
Proof.
  intros H. pose proof (unchanged_without_occurrence rest H) as Hr.
  split; [exact Hr|].
  unfold sqlite_url, replace.
  change ("postgresql+asyncpg" +:+ rest)
    with (String "p" ("ostgresql+asyncpg" +:+ rest)).
  rewrite replace_step.
  change (String "p" ("ostgresql+asyncpg" +:+ rest)) with (old +:+ rest).
  rewrite prefix_append.
  change (replace_from old new 17 ("ostgresql+asyncpg" +:+ rest))
    with (replace_from old new 0 rest).
  by rewrite Hr.
Qed.

Lemma sqlite_url_rewrites_the_driver_example :
  sqlite_url "sqlite+aiosqlite:///./sql_app.db" = "sqlite+aiosqlite:///./sql_app.db" ∧
  sqlite_url "postgresql+asyncpg://user@host/db" = "sqlite+aiosqlite://user@host/db".
Proof.
  split.
  - apply (sqlite_url_rewrites_the_driver "sqlite+aiosqlite:///./sql_app.db").
    reflexivity.
  - apply (sqlite_url_rewrites_the_driver "://user@host/db"). reflexivity.
Defined.

End SessionFacts.
